(** * The ISA interrupt-storm generator and its seL4 consumer

    A shallow embedding of the QEMU device model [isa-irq-storm]
    (register file, periodic scheduler with drift correction, edge and
    level interrupt modes) and of the consumer's stable 64-bit counter
    read, together with the properties the design document states about
    them.

    C integers are modelled as [Z] with every conversion written out:
    [u8], [u32] and [u64] reduce modulo the width, [s64] is the
    two's-complement reading of 64 bits. *)

From Stdlib Require Import String.
From Stdlib Require Import ZArith List Bool Lia.
Import ListNotations.
Open Scope Z_scope.

(** ** Machine integers *)

Definition u8 (x : Z) : Z := x mod 2 ^ 8.
Definition u32 (x : Z) : Z := x mod 2 ^ 32.
Definition u64 (x : Z) : Z := x mod 2 ^ 64.
Definition s64 (x : Z) : Z := (x + 2 ^ 63) mod 2 ^ 64 - 2 ^ 63.

Definition BIT (n : Z) : Z := Z.shiftl 1 n.

(** ** Register map and constants (the device's [#define]s) *)

Definition IRQ_STORM_REG_CTRL : Z := 0x00.
Definition IRQ_STORM_REG_IRQ : Z := 0x01.
Definition IRQ_STORM_REG_BURST : Z := 0x02.
Definition IRQ_STORM_REG_STATUS : Z := 0x03.
Definition IRQ_STORM_REG_PERIOD_US : Z := 0x04.
Definition IRQ_STORM_REG_PULSES_LO : Z := 0x08.
Definition IRQ_STORM_REG_PULSES_HI : Z := 0x0c.
Definition IRQ_STORM_REG_TIMER_CB : Z := 0x10.
Definition IRQ_STORM_REG_CFG_WRITES : Z := 0x14.
Definition IRQ_STORM_REG_EN_TOGGLES : Z := 0x18.
Definition IRQ_STORM_REG_ACK : Z := 0x1c.

Definition IRQ_STORM_CTRL_ENABLE : Z := BIT 0.
Definition IRQ_STORM_CTRL_LEVEL : Z := BIT 1.

Definition IRQ_STORM_STATUS_ENABLED : Z := BIT 0.
Definition IRQ_STORM_STATUS_ASSERT : Z := BIT 1.
Definition IRQ_STORM_STATUS_LEVEL : Z := BIT 2.

Definition IRQ_STORM_MAX_BURST : Z := 100000.

(** Modelled from the spec: [SCALE_US] and [MAX] come from the host
    emulator's headers, which are not part of the repository.  The
    period register is in microseconds and deadlines are in
    nanoseconds, so the scale is 1000.  It is a plain [int] constant
    there, so its product with the 32-bit period is computed in 32 bits
    before it is widened. *)
Definition SCALE_US : Z := 1000.

(** ** Device state *)

(** Calls made on the device's interrupt line, most recent first. *)
Inductive irq_call : Type := Raise | Lower | Pulse.

(** Level of the line after the recorded calls: [qemu_irq_raise] leaves
    it high, [qemu_irq_lower] and [qemu_irq_pulse] leave it low. *)
Definition line_high (tr : list irq_call) : bool :=
  match tr with
  | Raise :: _ => true
  | _ => false
  end.

(** [struct ISAIrqStormState].  The three host objects are kept as what
    the device can observe of them: [io] is the mapped window (base,
    size), [timer] tells whether the timer object exists and
    [expire_time] when it is armed, [irq] is the bound ISA line and
    [irq_trace] the calls made on it. *)
Record ISAIrqStormState : Type := mkState {
  iobase : Z;
  iosize : Z;
  isairq : Z;
  burst : Z;
  period_us : Z;
  start_enabled : bool;
  level_triggered : bool;

  control : Z;
  irq_asserted : bool;
  next_deadline_ns : Z;
  pulses_emitted : Z;
  timer_cb_count : Z;
  config_writes : Z;
  enable_toggle_count : Z;

  io : option (Z * Z);
  timer : bool;
  expire_time : option Z;
  irq : option Z;
  irq_trace : list irq_call
}.

(** Field updates. *)

Definition set_burst (v : Z) (s : ISAIrqStormState) : ISAIrqStormState :=
  {| iobase := iobase s; iosize := iosize s; isairq := isairq s; burst := v;
     period_us := period_us s; start_enabled := start_enabled s;
     level_triggered := level_triggered s; control := control s;
     irq_asserted := irq_asserted s; next_deadline_ns := next_deadline_ns s;
     pulses_emitted := pulses_emitted s; timer_cb_count := timer_cb_count s;
     config_writes := config_writes s;
     enable_toggle_count := enable_toggle_count s; io := io s;
     timer := timer s; expire_time := expire_time s; irq := irq s;
     irq_trace := irq_trace s |}.

Definition set_period_us (v : Z) (s : ISAIrqStormState) : ISAIrqStormState :=
  {| iobase := iobase s; iosize := iosize s; isairq := isairq s;
     burst := burst s; period_us := v; start_enabled := start_enabled s;
     level_triggered := level_triggered s; control := control s;
     irq_asserted := irq_asserted s; next_deadline_ns := next_deadline_ns s;
     pulses_emitted := pulses_emitted s; timer_cb_count := timer_cb_count s;
     config_writes := config_writes s;
     enable_toggle_count := enable_toggle_count s; io := io s;
     timer := timer s; expire_time := expire_time s; irq := irq s;
     irq_trace := irq_trace s |}.

Definition set_control (v : Z) (s : ISAIrqStormState) : ISAIrqStormState :=
  {| iobase := iobase s; iosize := iosize s; isairq := isairq s;
     burst := burst s; period_us := period_us s;
     start_enabled := start_enabled s; level_triggered := level_triggered s;
     control := v; irq_asserted := irq_asserted s;
     next_deadline_ns := next_deadline_ns s;
     pulses_emitted := pulses_emitted s; timer_cb_count := timer_cb_count s;
     config_writes := config_writes s;
     enable_toggle_count := enable_toggle_count s; io := io s;
     timer := timer s; expire_time := expire_time s; irq := irq s;
     irq_trace := irq_trace s |}.

Definition set_irq_asserted (v : bool) (s : ISAIrqStormState) : ISAIrqStormState :=
  {| iobase := iobase s; iosize := iosize s; isairq := isairq s;
     burst := burst s; period_us := period_us s;
     start_enabled := start_enabled s; level_triggered := level_triggered s;
     control := control s; irq_asserted := v;
     next_deadline_ns := next_deadline_ns s;
     pulses_emitted := pulses_emitted s; timer_cb_count := timer_cb_count s;
     config_writes := config_writes s;
     enable_toggle_count := enable_toggle_count s; io := io s;
     timer := timer s; expire_time := expire_time s; irq := irq s;
     irq_trace := irq_trace s |}.

Definition set_next_deadline_ns (v : Z) (s : ISAIrqStormState) : ISAIrqStormState :=
  {| iobase := iobase s; iosize := iosize s; isairq := isairq s;
     burst := burst s; period_us := period_us s;
     start_enabled := start_enabled s; level_triggered := level_triggered s;
     control := control s; irq_asserted := irq_asserted s;
     next_deadline_ns := v; pulses_emitted := pulses_emitted s;
     timer_cb_count := timer_cb_count s; config_writes := config_writes s;
     enable_toggle_count := enable_toggle_count s; io := io s;
     timer := timer s; expire_time := expire_time s; irq := irq s;
     irq_trace := irq_trace s |}.

Definition set_pulses_emitted (v : Z) (s : ISAIrqStormState) : ISAIrqStormState :=
  {| iobase := iobase s; iosize := iosize s; isairq := isairq s;
     burst := burst s; period_us := period_us s;
     start_enabled := start_enabled s; level_triggered := level_triggered s;
     control := control s; irq_asserted := irq_asserted s;
     next_deadline_ns := next_deadline_ns s; pulses_emitted := v;
     timer_cb_count := timer_cb_count s; config_writes := config_writes s;
     enable_toggle_count := enable_toggle_count s; io := io s;
     timer := timer s; expire_time := expire_time s; irq := irq s;
     irq_trace := irq_trace s |}.

Definition set_timer_cb_count (v : Z) (s : ISAIrqStormState) : ISAIrqStormState :=
  {| iobase := iobase s; iosize := iosize s; isairq := isairq s;
     burst := burst s; period_us := period_us s;
     start_enabled := start_enabled s; level_triggered := level_triggered s;
     control := control s; irq_asserted := irq_asserted s;
     next_deadline_ns := next_deadline_ns s;
     pulses_emitted := pulses_emitted s; timer_cb_count := v;
     config_writes := config_writes s;
     enable_toggle_count := enable_toggle_count s; io := io s;
     timer := timer s; expire_time := expire_time s; irq := irq s;
     irq_trace := irq_trace s |}.

Definition set_config_writes (v : Z) (s : ISAIrqStormState) : ISAIrqStormState :=
  {| iobase := iobase s; iosize := iosize s; isairq := isairq s;
     burst := burst s; period_us := period_us s;
     start_enabled := start_enabled s; level_triggered := level_triggered s;
     control := control s; irq_asserted := irq_asserted s;
     next_deadline_ns := next_deadline_ns s;
     pulses_emitted := pulses_emitted s; timer_cb_count := timer_cb_count s;
     config_writes := v; enable_toggle_count := enable_toggle_count s;
     io := io s; timer := timer s; expire_time := expire_time s;
     irq := irq s; irq_trace := irq_trace s |}.

Definition set_enable_toggle_count (v : Z) (s : ISAIrqStormState) : ISAIrqStormState :=
  {| iobase := iobase s; iosize := iosize s; isairq := isairq s;
     burst := burst s; period_us := period_us s;
     start_enabled := start_enabled s; level_triggered := level_triggered s;
     control := control s; irq_asserted := irq_asserted s;
     next_deadline_ns := next_deadline_ns s;
     pulses_emitted := pulses_emitted s; timer_cb_count := timer_cb_count s;
     config_writes := config_writes s; enable_toggle_count := v; io := io s;
     timer := timer s; expire_time := expire_time s; irq := irq s;
     irq_trace := irq_trace s |}.

Definition set_expire_time (v : option Z) (s : ISAIrqStormState) : ISAIrqStormState :=
  {| iobase := iobase s; iosize := iosize s; isairq := isairq s;
     burst := burst s; period_us := period_us s;
     start_enabled := start_enabled s; level_triggered := level_triggered s;
     control := control s; irq_asserted := irq_asserted s;
     next_deadline_ns := next_deadline_ns s;
     pulses_emitted := pulses_emitted s; timer_cb_count := timer_cb_count s;
     config_writes := config_writes s;
     enable_toggle_count := enable_toggle_count s; io := io s;
     timer := timer s; expire_time := v; irq := irq s;
     irq_trace := irq_trace s |}.

Definition set_irq_trace (v : list irq_call) (s : ISAIrqStormState) : ISAIrqStormState :=
  {| iobase := iobase s; iosize := iosize s; isairq := isairq s;
     burst := burst s; period_us := period_us s;
     start_enabled := start_enabled s; level_triggered := level_triggered s;
     control := control s; irq_asserted := irq_asserted s;
     next_deadline_ns := next_deadline_ns s;
     pulses_emitted := pulses_emitted s; timer_cb_count := timer_cb_count s;
     config_writes := config_writes s;
     enable_toggle_count := enable_toggle_count s; io := io s;
     timer := timer s; expire_time := expire_time s; irq := irq s;
     irq_trace := v |}.

(** ** Host primitives used by the device *)

Definition qemu_irq_raise (s : ISAIrqStormState) : ISAIrqStormState :=
  set_irq_trace (Raise :: irq_trace s) s.

Definition qemu_irq_lower (s : ISAIrqStormState) : ISAIrqStormState :=
  set_irq_trace (Lower :: irq_trace s) s.

Definition qemu_irq_pulse (s : ISAIrqStormState) : ISAIrqStormState :=
  set_irq_trace (Pulse :: irq_trace s) s.

Definition timer_mod (expire : Z) (s : ISAIrqStormState) : ISAIrqStormState :=
  set_expire_time (Some expire) s.

Definition timer_del (s : ISAIrqStormState) : ISAIrqStormState :=
  set_expire_time None s.

(** ** The device model *)

Definition ctrl_enable (c : Z) : bool :=
  negb (Z.land c IRQ_STORM_CTRL_ENABLE =? 0).

Definition ctrl_level (c : Z) : bool :=
  negb (Z.land c IRQ_STORM_CTRL_LEVEL =? 0).

(** [MAX(1U, s->period_us) * SCALE_US]: an [unsigned int] product,
    widened to 64 bits on return. *)
Definition irq_storm_period_ns (s : ISAIrqStormState) : Z :=
  u64 (u32 (Z.max 1 (period_us s) * SCALE_US)).

Definition irq_storm_irq_deassert (s : ISAIrqStormState) : ISAIrqStormState :=
  if irq_asserted s then set_irq_asserted false (qemu_irq_lower s) else s.

Definition irq_storm_schedule_from_now (now : Z) (s : ISAIrqStormState)
  : ISAIrqStormState :=
  if negb (ctrl_enable (control s)) then s
  else
    let s1 := set_next_deadline_ns (s64 (u64 now + irq_storm_period_ns s)) s in
    timer_mod (next_deadline_ns s1) s1.

(** [None] is the division by a zero period. *)
Definition irq_storm_schedule_next (now : Z) (s : ISAIrqStormState)
  : option ISAIrqStormState :=
  if negb (ctrl_enable (control s)) then Some s
  else
    let period_ns := irq_storm_period_ns s in
    let s1 :=
      set_next_deadline_ns (s64 (u64 (next_deadline_ns s) + period_ns)) s in
    if next_deadline_ns s1 <=? now then
      if period_ns =? 0 then None
      else
        let missed :=
          u64 (u64 (s64 (now - next_deadline_ns s1)) / period_ns + 1) in
        let s2 :=
          set_next_deadline_ns
            (s64 (u64 (next_deadline_ns s1) + u64 (missed * period_ns))) s1 in
        Some (timer_mod (next_deadline_ns s2) s2)
    else Some (timer_mod (next_deadline_ns s1) s1).

(** The [for] loop of the edge branch: [n] calls of [qemu_irq_pulse]. *)
Fixpoint pulse_loop (n : nat) (s : ISAIrqStormState) : ISAIrqStormState :=
  match n with
  | O => s
  | S n' => pulse_loop n' (qemu_irq_pulse s)
  end.

(** [MIN(MAX(1U, s->burst), IRQ_STORM_MAX_BURST)]. *)
Definition burst_pulses (s : ISAIrqStormState) : Z :=
  Z.min (Z.max 1 (burst s)) IRQ_STORM_MAX_BURST.

Definition irq_storm_timer_cb (now : Z) (s : ISAIrqStormState)
  : option ISAIrqStormState :=
  if negb (ctrl_enable (control s)) then Some s
  else
    let s1 := set_timer_cb_count (u64 (timer_cb_count s + 1)) s in
    let s2 :=
      if ctrl_level (control s1) then
        if negb (irq_asserted s1) then
          set_pulses_emitted (u64 (pulses_emitted s1 + 1))
            (set_irq_asserted true (qemu_irq_raise s1))
        else s1
      else
        let pulses := burst_pulses s1 in
        set_pulses_emitted (u64 (pulses_emitted s1 + pulses))
          (pulse_loop (Z.to_nat pulses) s1) in
    irq_storm_schedule_next now s2.

(** [size] is ignored by the device ([(void)size]) and left out. *)
Definition irq_storm_read (addr : Z) (s : ISAIrqStormState) : Z :=
  if addr =? IRQ_STORM_REG_CTRL then control s
  else if addr =? IRQ_STORM_REG_IRQ then isairq s
  else if addr =? IRQ_STORM_REG_BURST then burst s
  else if addr =? IRQ_STORM_REG_STATUS then
    let status := 0 in
    let status :=
      if ctrl_enable (control s)
      then u8 (Z.lor status IRQ_STORM_STATUS_ENABLED) else status in
    let status :=
      if irq_asserted s
      then u8 (Z.lor status IRQ_STORM_STATUS_ASSERT) else status in
    let status :=
      if ctrl_level (control s)
      then u8 (Z.lor status IRQ_STORM_STATUS_LEVEL) else status in
    status
  else if addr =? IRQ_STORM_REG_PERIOD_US then period_us s
  else if addr =? IRQ_STORM_REG_PULSES_LO then u32 (pulses_emitted s)
  else if addr =? IRQ_STORM_REG_PULSES_HI then
    u32 (Z.shiftr (pulses_emitted s) 32)
  else if addr =? IRQ_STORM_REG_TIMER_CB then u32 (timer_cb_count s)
  else if addr =? IRQ_STORM_REG_CFG_WRITES then u32 (config_writes s)
  else if addr =? IRQ_STORM_REG_EN_TOGGLES then u32 (enable_toggle_count s)
  else 0.

Definition write_ctrl (now val : Z) (s : ISAIrqStormState) : ISAIrqStormState :=
  let old_control := control s in
  let was_level := ctrl_level old_control in
  let was_enabled := ctrl_enable old_control in
  let new_control :=
    u8 (Z.land val (Z.lor IRQ_STORM_CTRL_ENABLE IRQ_STORM_CTRL_LEVEL)) in
  let s1 :=
    if negb (new_control =? old_control) then
      set_control new_control (set_config_writes (u64 (config_writes s + 1)) s)
    else s in
  let is_level := ctrl_level (control s1) in
  let s2 :=
    if was_level && negb is_level then irq_storm_irq_deassert s1 else s1 in
  let is_enabled := ctrl_enable (control s2) in
  let s3 :=
    if negb (Bool.eqb is_enabled was_enabled) then
      set_enable_toggle_count (u64 (enable_toggle_count s2 + 1)) s2
    else s2 in
  if is_enabled then
    if negb was_enabled then irq_storm_schedule_from_now now s3 else s3
  else irq_storm_irq_deassert (timer_del s3).

Definition write_burst (val : Z) (s : ISAIrqStormState) : ISAIrqStormState :=
  if negb (u32 val =? burst s) then
    set_config_writes (u64 (config_writes s + 1)) (set_burst (u32 val) s)
  else s.

Definition write_period_us (now val : Z) (s : ISAIrqStormState)
  : ISAIrqStormState :=
  if negb (u32 val =? period_us s) then
    let s1 :=
      set_config_writes (u64 (config_writes s + 1))
        (set_period_us (u32 val) s) in
    if ctrl_enable (control s1) then irq_storm_schedule_from_now now s1
    else s1
  else s.

Definition write_ack (val : Z) (s : ISAIrqStormState) : ISAIrqStormState :=
  if negb (val =? 0) then irq_storm_irq_deassert s else s.

(** The [switch] of [irq_storm_write]; [now] is the virtual clock read
    by the re-arming paths, [size] is ignored as in the source. *)
Definition irq_storm_write (now addr val : Z) (s : ISAIrqStormState)
  : ISAIrqStormState :=
  if addr =? IRQ_STORM_REG_CTRL then write_ctrl now val s
  else if addr =? IRQ_STORM_REG_BURST then write_burst val s
  else if addr =? IRQ_STORM_REG_PERIOD_US then write_period_us now val s
  else if addr =? IRQ_STORM_REG_ACK then write_ack val s
  else s.

(** What [irq_storm_realize] creates: the line binding, the timer and
    the mapped window. *)
Definition set_host (w : option (Z * Z)) (t : bool) (q : option Z)
  (s : ISAIrqStormState) : ISAIrqStormState :=
  {| iobase := iobase s; iosize := iosize s; isairq := isairq s;
     burst := burst s; period_us := period_us s;
     start_enabled := start_enabled s;
     level_triggered := level_triggered s; control := control s;
     irq_asserted := irq_asserted s; next_deadline_ns := next_deadline_ns s;
     pulses_emitted := pulses_emitted s; timer_cb_count := timer_cb_count s;
     config_writes := config_writes s;
     enable_toggle_count := enable_toggle_count s; io := w; timer := t;
     expire_time := expire_time s; irq := q; irq_trace := irq_trace s |}.

(** The state comes back with the error, if any, so that what a failed
    realize leaves behind can be inspected. *)
Definition irq_storm_realize (now : Z) (s : ISAIrqStormState)
  : ISAIrqStormState * option string :=
  if 15 <? isairq s then
    (s, Some "isa-irq-storm: irq must be in range [0..15]"%string)
  else if iosize s <? 0x20 then
    (s, Some "isa-irq-storm: iosize must be at least 0x20"%string)
  else
    let s1 := set_host (Some (iobase s, iosize s)) true (Some (isairq s)) s in
    let s2 :=
      if level_triggered s1
      then set_control (u8 (Z.lor (control s1) IRQ_STORM_CTRL_LEVEL)) s1
      else s1 in
    let s3 :=
      if start_enabled s2 then
        irq_storm_schedule_from_now now
          (set_control (u8 (Z.lor (control s2) IRQ_STORM_CTRL_ENABLE)) s2)
      else s2 in
    (s3, None).

(** Modelled from the spec: the object framework that allocates the
    device is not part of the repository.  Configuration and state are
    created together: the properties are set and everything else starts
    zeroed, with no host object attached. *)
Definition instance_init (base size line nburst period : Z)
  (enabled level : bool) : ISAIrqStormState :=
  {| iobase := base; iosize := size; isairq := line; burst := nburst;
     period_us := period; start_enabled := enabled;
     level_triggered := level; control := 0; irq_asserted := false;
     next_deadline_ns := 0; pulses_emitted := 0; timer_cb_count := 0;
     config_writes := 0; enable_toggle_count := 0; io := None;
     timer := false; expire_time := None; irq := None; irq_trace := [] |}.

(** The defaults of [irq_storm_properties]. *)
Definition default_instance : ISAIrqStormState :=
  instance_init 0x560 0x20 5 128 100 true false.

(** ** Operations and runs *)

Inductive op : Type :=
| Read (addr : Z)
| Write (now addr val : Z)
| Fire (now : Z).

(** One operation on the device.  A read leaves the state alone; the
    callback may stop on the division by a zero period. *)
Definition step (o : op) (s : ISAIrqStormState) : option ISAIrqStormState :=
  match o with
  | Read _ => Some s
  | Write now addr val => Some (irq_storm_write now addr val s)
  | Fire now => irq_storm_timer_cb now s
  end.

(** Consecutive timer callbacks at the given clock readings. *)
Fixpoint fires (nows : list Z) (s : ISAIrqStormState)
  : option ISAIrqStormState :=
  match nows with
  | [] => Some s
  | now :: rest =>
      match irq_storm_timer_cb now s with
      | Some s' => fires rest s'
      | None => None
      end
  end.

(** States of a realized device as the host drives it, indexed by the
    virtual clock: writes arrive at any time, the timer callback runs
    only when the timer is pending and due, and the timer is taken off
    the pending list before its callback runs. *)
Inductive reachable : Z -> ISAIrqStormState -> Prop :=
| reach_realize now base size line nburst period enabled level s :
    0 <= base < 2 ^ 32 -> 0 <= size < 2 ^ 32 -> 0 <= line < 2 ^ 32 ->
    0 <= nburst < 2 ^ 32 -> 0 <= period < 2 ^ 32 ->
    0 <= now < 2 ^ 63 ->
    irq_storm_realize now
      (instance_init base size line nburst period enabled level) = (s, None) ->
    reachable now s
| reach_write t now addr val s :
    reachable t s -> t <= now < 2 ^ 63 -> 0 <= val < 2 ^ 64 ->
    reachable now (irq_storm_write now addr val s)
| reach_fire t now deadline s s' :
    reachable t s -> t <= now < 2 ^ 63 ->
    expire_time s = Some deadline -> deadline <= now ->
    irq_storm_timer_cb now (timer_del s) = Some s' ->
    reachable now s'.

(** ** The invariant of a running device *)

(** Every field within the range of its C type, only the two control
    bits ever stored, the line held only while enabled and in level
    mode, the line level and the [irq_asserted] flag in agreement, the
    timer pending only while enabled, and the host objects attached as
    [irq_storm_realize] leaves them. *)
Record Inv (s : ISAIrqStormState) : Prop := {
  inv_burst : 0 <= burst s < 2 ^ 32;
  inv_period : 0 <= period_us s < 2 ^ 32;
  inv_control : 0 <= control s < 4;
  inv_deadline : - 2 ^ 63 <= next_deadline_ns s < 2 ^ 63;
  inv_pulses : 0 <= pulses_emitted s < 2 ^ 64;
  inv_fires : 0 <= timer_cb_count s < 2 ^ 64;
  inv_writes : 0 <= config_writes s < 2 ^ 64;
  inv_toggles : 0 <= enable_toggle_count s < 2 ^ 64;
  inv_disabled : ctrl_enable (control s) = false -> irq_asserted s = false;
  inv_edge : ctrl_level (control s) = false -> irq_asserted s = false;
  inv_line : line_high (irq_trace s) = irq_asserted s;
  inv_timer : expire_time s <> None -> ctrl_enable (control s) = true;
  inv_host :
    timer s = true /\ io s = Some (iobase s, iosize s) /\
    irq s = Some (isairq s);
  inv_props : 0 <= isairq s <= 15 /\ 0x20 <= iosize s < 2 ^ 32
}.

(** ** Notions the design document uses *)

(** [clamp(x, lo, hi)] as the document writes it. *)
Definition clamp (x lo hi : Z) : Z :=
  if x <? lo then lo else if hi <? x then hi else x.

(** The offsets the register file defines (the [case] labels of the
    read and write switches together). *)
Definition defined_offsets : list Z :=
  [IRQ_STORM_REG_CTRL; IRQ_STORM_REG_IRQ; IRQ_STORM_REG_BURST;
   IRQ_STORM_REG_STATUS; IRQ_STORM_REG_PERIOD_US; IRQ_STORM_REG_PULSES_LO;
   IRQ_STORM_REG_PULSES_HI; IRQ_STORM_REG_TIMER_CB;
   IRQ_STORM_REG_CFG_WRITES; IRQ_STORM_REG_EN_TOGGLES; IRQ_STORM_REG_ACK].

(** The line is never held by a disabled device. *)
Definition quiet_when_disabled (s : ISAIrqStormState) : Prop :=
  ctrl_enable (control s) = false -> irq_asserted s = false.

(** ** A long edge-mode storm *)

(** The device with the largest burst and the shortest period, started
    enabled at clock 0 and having served [n] timer callbacks, each at its
    deadline. *)
Definition storm_state (n : Z) : ISAIrqStormState :=
  {| iobase := 0x560; iosize := 0x20; isairq := 5; burst := 100000;
     period_us := 1; start_enabled := true; level_triggered := false;
     control := 1; irq_asserted := false;
     next_deadline_ns := 1000 * (n + 1);
     pulses_emitted := 100000 * n; timer_cb_count := n;
     config_writes := 0; enable_toggle_count := 0;
     io := Some (0x560, 0x20); timer := true;
     expire_time := Some (1000 * (n + 1)); irq := Some 5;
     irq_trace := repeat Pulse (Z.to_nat (100000 * n)) |}.

(** The last callback count at which [pulses_emitted] has not wrapped. *)
Definition storm_fires : Z := 184467440737095.

Definition wrap_state : ISAIrqStormState := storm_state storm_fires.

(** ** The consumer's stable 64-bit read *)

(** The consumer's view of the register file ([sel4_irq_handle.c]). *)
Definition STORM_IOBASE : Z := 0x560.
Definition REG_PULSES_LO : Z := STORM_IOBASE + 0x08.
Definition REG_PULSES_HI : Z := STORM_IOBASE + 0x0C.

(** The device as the bus presents it to the consumer: [b n] is the
    device state at the consumer's [n]-th port access.  Each access is
    atomic; between two accesses the device runs on its own. *)
Definition bus : Type := nat -> ISAIrqStormState.

(** [io_in32]: a 32-bit port read, decoded by the device relative to its
    window base.  The error report of the source only prints. *)
Definition io_in32 (dev : ISAIrqStormState) (port : Z) : Z :=
  u32 (irq_storm_read (port - iobase dev) dev).

(** [read_u64_lohi_stable]; the [do ... while] loop runs at most [fuel]
    rounds, [n] counts the port accesses made so far.  The result is the
    value together with the access count after the accepted round. *)
Fixpoint read_u64_lohi_stable (b : bus) (fuel n : nat) (lo_port hi_port : Z)
  : option (Z * nat) :=
  match fuel with
  | O => None
  | S fuel' =>
      let hi1 := io_in32 (b n) hi_port in
      let lo := io_in32 (b (n + 1)%nat) lo_port in
      let hi2 := io_in32 (b (n + 2)%nat) hi_port in
      if negb (hi1 =? hi2)
      then read_u64_lohi_stable b fuel' (n + 3)%nat lo_port hi_port
      else Some (Z.lor (u64 (Z.shiftl hi2 32)) lo, (n + 3)%nat)
  end.

(** The device running by its own operations, none of which wraps
    [pulses_emitted]: the serializations of fires and writes under which
    the counter is monotonic. *)
Inductive evolves : ISAIrqStormState -> ISAIrqStormState -> Prop :=
| evolves_refl s : evolves s s
| evolves_step o s s1 s2 :
    step o s = Some s1 ->
    pulses_emitted s <= pulses_emitted s1 ->
    evolves s1 s2 ->
    evolves s s2.

(** ** Sample devices *)

(** Realized at clock 0 with the default window and line: an enabled
    edge-mode device with a burst of 5, an enabled level-mode device and
    a device that starts disabled. *)
Definition edge_device : ISAIrqStormState :=
  fst (irq_storm_realize 0 (instance_init 0x560 0x20 5 5 100 true false)).

Definition level_device : ISAIrqStormState :=
  fst (irq_storm_realize 0 (instance_init 0x560 0x20 5 128 100 true true)).

Definition idle_device : ISAIrqStormState :=
  fst (irq_storm_realize 0 (instance_init 0x560 0x20 5 128 100 false false)).

(** The state after the callback at [now], or the state itself if the
    callback stops. *)
Definition fired (now : Z) (s : ISAIrqStormState) : ISAIrqStormState :=
  match irq_storm_timer_cb now s with
  | Some s' => s'
  | None => s
  end.

(** A race around a carry into the high word: the counter stands three
    short of [2 ^ 32] at the consumer's first port access and a burst of
    5 lands before the second. *)
Definition carry_before : ISAIrqStormState :=
  set_pulses_emitted (2 ^ 32 - 3) edge_device.

Definition carry_after : ISAIrqStormState := fired 100000 carry_before.

Definition racing_bus : bus :=
  fun i => match i with
           | O => carry_before
           | S _ => carry_after
           end.

(** ** More of the device *)

(** [irq_storm_unrealize]: the timer is cancelled and freed, and the
    pointer cleared. *)
Definition irq_storm_unrealize (s : ISAIrqStormState) : ISAIrqStormState :=
  if timer s then set_host (io s) false (irq s) (timer_del s) else s.

(** The calls that drive the line high: every raise and every pulse. *)
Fixpoint line_assertions (tr : list irq_call) : Z :=
  match tr with
  | [] => 0
  | Raise :: rest => 1 + line_assertions rest
  | Pulse :: rest => 1 + line_assertions rest
  | Lower :: rest => line_assertions rest
  end.

(** The timer is pending exactly while ENABLE is set, and then at the
    recorded deadline. *)
Definition armed_when_enabled (s : ISAIrqStormState) : Prop :=
  expire_time s =
  if ctrl_enable (control s) then Some (next_deadline_ns s) else None.

(** ** More of the consumer *)


Definition CTRL_LEVEL : Z := Z.shiftl 1 1.

Definition STATUS_ENABLED : Z := Z.shiftl 1 0.






(** The reporting cadence of the service loop. *)
Definition report_every_handled : Z := Z.shiftl 1 16.

(** The loop's bookkeeping over [n] wake-ups: [handled] is incremented
    and a report is due when its low 16 bits are clear.  The result is
    the final count and the number of reports made. *)
Fixpoint service_loop_count (n : nat) (handled reports : Z) : Z * Z :=
  match n with
  | O => (handled, reports)
  | S n' =>
      let handled := u64 (handled + 1) in
      if Z.land handled (report_every_handled - 1) =? 0
      then service_loop_count n' handled (reports + 1)
      else service_loop_count n' handled reports
  end.


(** Modelled from the spec: the slot and boot-info types are the
    kernel's and are not part of the repository; of the boot info only
    what the allocator and the untyped search read is kept.  Words are
    64-bit. *)
Record seL4_SlotRegion : Type := {
  start : Z;
  end_ : Z
}.

Record seL4_UntypedDesc : Type := {
  sizeBits : Z;
  isDevice : Z
}.

Record seL4_BootInfo : Type := {
  empty : seL4_SlotRegion;
  untyped : seL4_SlotRegion;
  untypedList : list seL4_UntypedDesc
}.

(** [cslot_window_t]; the field [end] is spelled [win_end]. *)
Record cslot_window_t : Type := {
  cur : Z;
  win_end : Z
}.

(** [None] is the halt after the error message. *)
Definition reserve_cslot_window_from_end (bi : seL4_BootInfo) (nslots : Z)
  : option cslot_window_t :=
  if nslots =? 0 then None
  else
    let avail := u64 (end_ (empty bi) - start (empty bi)) in
    if avail <? nslots then None
    else Some {| cur := u64 (end_ (empty bi) - nslots);
                 win_end := end_ (empty bi) |}.

Definition cslot_alloc_or_die (w : cslot_window_t)
  : option (Z * cslot_window_t) :=
  if win_end w <=? cur w then None
  else Some (cur w, {| cur := u64 (cur w + 1); win_end := win_end w |}).

(** [k] allocations in a row; the slots are listed in the order they
    were handed out. *)
Fixpoint cslot_alloc_many (k : nat) (w : cslot_window_t)
  : option (list Z * cslot_window_t) :=
  match k with
  | O => Some ([], w)
  | S k' =>
      match cslot_alloc_or_die w with
      | None => None
      | Some (slot, w') =>
          match cslot_alloc_many k' w' with
          | None => None
          | Some (slots, w'') => Some (slot :: slots, w'')
          end
      end
  end.

Definition s32 (x : Z) : Z := (x + 2 ^ 31) mod 2 ^ 32 - 2 ^ 31.

(** The [for] loop of [find_untyped_or_die], [n] candidates left from
    [ut] on; the index is the difference cast to [int].  [None] is the
    halt when none fits (or a read outside the list). *)
Fixpoint find_untyped_loop (bi : seL4_BootInfo) (min_size_bits : Z)
  (ut : Z) (n : nat) : option Z :=
  match n with
  | O => None
  | S n' =>
      let idx := s32 (u64 (ut - start (untyped bi))) in
      if idx <? 0 then None
      else
        match nth_error (untypedList bi) (Z.to_nat idx) with
        | None => None
        | Some d =>
            if negb (isDevice d =? 0)
            then find_untyped_loop bi min_size_bits (ut + 1) n'
            else if min_size_bits <=? sizeBits d then Some ut
            else find_untyped_loop bi min_size_bits (ut + 1) n'
        end
  end.

Definition find_untyped_or_die (bi : seL4_BootInfo) (min_size_bits : Z)
  : option Z :=
  find_untyped_loop bi min_size_bits (start (untyped bi))
    (Z.to_nat (end_ (untyped bi) - start (untyped bi))).

(** An untyped the search accepts: not device memory and large enough. *)
Definition untyped_fits (bi : seL4_BootInfo) (min_size_bits ut : Z) : Prop :=
  exists d,
    nth_error (untypedList bi) (Z.to_nat (ut - start (untyped bi))) = Some d /\
    isDevice d = 0 /\ min_size_bits <= sizeBits d.

(** ** The first version of the device ([irq_dev_qemu.c]) *)

(** Edge bursts only, one pulse register and a scheduler that re-arms
    one period after the callback runs.  The host objects are kept as in
    the current version. *)
Module Legacy.

Definition IRQ_STORM_REG_CTRL : Z := 0x00.
Definition IRQ_STORM_REG_IRQ : Z := 0x01.
Definition IRQ_STORM_REG_BURST : Z := 0x02.
Definition IRQ_STORM_REG_STATUS : Z := 0x03.
Definition IRQ_STORM_REG_PERIOD_US : Z := 0x04.
Definition IRQ_STORM_REG_PULSES : Z := 0x08.

Definition IRQ_STORM_CTRL_ENABLE : Z := BIT 0.
Definition IRQ_STORM_MAX_BURST : Z := 100000.

Record ISAIrqStormState : Type := mkState {
  iobase : Z;
  iosize : Z;
  isairq : Z;
  burst : Z;
  period_us : Z;
  start_enabled : bool;

  control : Z;
  pulses_emitted : Z;

  io : option (Z * Z);
  timer : bool;
  expire_time : option Z;
  irq : option Z;
  irq_trace : list irq_call
}.

Definition set_burst (v : Z) (s : ISAIrqStormState) : ISAIrqStormState :=
  {| iobase := iobase s; iosize := iosize s; isairq := isairq s; burst := v;
     period_us := period_us s; start_enabled := start_enabled s;
     control := control s; pulses_emitted := pulses_emitted s; io := io s;
     timer := timer s; expire_time := expire_time s; irq := irq s;
     irq_trace := irq_trace s |}.

Definition set_period_us (v : Z) (s : ISAIrqStormState) : ISAIrqStormState :=
  {| iobase := iobase s; iosize := iosize s; isairq := isairq s;
     burst := burst s; period_us := v; start_enabled := start_enabled s;
     control := control s; pulses_emitted := pulses_emitted s; io := io s;
     timer := timer s; expire_time := expire_time s; irq := irq s;
     irq_trace := irq_trace s |}.

Definition set_control (v : Z) (s : ISAIrqStormState) : ISAIrqStormState :=
  {| iobase := iobase s; iosize := iosize s; isairq := isairq s;
     burst := burst s; period_us := period_us s;
     start_enabled := start_enabled s; control := v;
     pulses_emitted := pulses_emitted s; io := io s; timer := timer s;
     expire_time := expire_time s; irq := irq s; irq_trace := irq_trace s |}.

Definition set_pulses_emitted (v : Z) (s : ISAIrqStormState) : ISAIrqStormState :=
  {| iobase := iobase s; iosize := iosize s; isairq := isairq s;
     burst := burst s; period_us := period_us s;
     start_enabled := start_enabled s; control := control s;
     pulses_emitted := v; io := io s; timer := timer s;
     expire_time := expire_time s; irq := irq s; irq_trace := irq_trace s |}.

Definition set_expire_time (v : option Z) (s : ISAIrqStormState) : ISAIrqStormState :=
  {| iobase := iobase s; iosize := iosize s; isairq := isairq s;
     burst := burst s; period_us := period_us s;
     start_enabled := start_enabled s; control := control s;
     pulses_emitted := pulses_emitted s; io := io s; timer := timer s;
     expire_time := v; irq := irq s; irq_trace := irq_trace s |}.

Definition set_irq_trace (v : list irq_call) (s : ISAIrqStormState) : ISAIrqStormState :=
  {| iobase := iobase s; iosize := iosize s; isairq := isairq s;
     burst := burst s; period_us := period_us s;
     start_enabled := start_enabled s; control := control s;
     pulses_emitted := pulses_emitted s; io := io s; timer := timer s;
     expire_time := expire_time s; irq := irq s; irq_trace := v |}.

Definition set_host (w : option (Z * Z)) (t : bool) (q : option Z)
  (s : ISAIrqStormState) : ISAIrqStormState :=
  {| iobase := iobase s; iosize := iosize s; isairq := isairq s;
     burst := burst s; period_us := period_us s;
     start_enabled := start_enabled s; control := control s;
     pulses_emitted := pulses_emitted s; io := w; timer := t;
     expire_time := expire_time s; irq := q; irq_trace := irq_trace s |}.

Definition qemu_irq_pulse (s : ISAIrqStormState) : ISAIrqStormState :=
  set_irq_trace (Pulse :: irq_trace s) s.

Definition timer_mod (expire : Z) (s : ISAIrqStormState) : ISAIrqStormState :=
  set_expire_time (Some expire) s.

Definition timer_del (s : ISAIrqStormState) : ISAIrqStormState :=
  set_expire_time None s.

Definition ctrl_enable (c : Z) : bool :=
  negb (Z.land c IRQ_STORM_CTRL_ENABLE =? 0).

Definition irq_storm_schedule_next (now : Z) (s : ISAIrqStormState)
  : ISAIrqStormState :=
  if negb (ctrl_enable (control s)) then s
  else
    let period_ns := u64 (u32 (Z.max 1 (period_us s) * SCALE_US)) in
    timer_mod (s64 (u64 now + period_ns)) s.

Fixpoint pulse_loop (n : nat) (s : ISAIrqStormState) : ISAIrqStormState :=
  match n with
  | O => s
  | S n' => pulse_loop n' (qemu_irq_pulse s)
  end.

Definition irq_storm_timer_cb (now : Z) (s : ISAIrqStormState)
  : ISAIrqStormState :=
  if negb (ctrl_enable (control s)) then s
  else
    let pulses := Z.min (Z.max 1 (burst s)) IRQ_STORM_MAX_BURST in
    let s1 := pulse_loop (Z.to_nat pulses) s in
    let s2 := set_pulses_emitted (u64 (pulses_emitted s1 + pulses)) s1 in
    irq_storm_schedule_next now s2.

Definition irq_storm_read (addr : Z) (s : ISAIrqStormState) : Z :=
  if addr =? IRQ_STORM_REG_CTRL then control s
  else if addr =? IRQ_STORM_REG_IRQ then isairq s
  else if addr =? IRQ_STORM_REG_BURST then burst s
  else if addr =? IRQ_STORM_REG_STATUS then
    if ctrl_enable (control s) then 1 else 0
  else if addr =? IRQ_STORM_REG_PERIOD_US then period_us s
  else if addr =? IRQ_STORM_REG_PULSES then u32 (pulses_emitted s)
  else 0.

Definition irq_storm_write (now addr val : Z) (s : ISAIrqStormState)
  : ISAIrqStormState :=
  let was_enabled := ctrl_enable (control s) in
  if addr =? IRQ_STORM_REG_CTRL then
    let s1 := set_control (u8 (Z.land val IRQ_STORM_CTRL_ENABLE)) s in
    if ctrl_enable (control s1) then
      if negb was_enabled then irq_storm_schedule_next now s1 else s1
    else timer_del s1
  else if addr =? IRQ_STORM_REG_BURST then set_burst (u32 val) s
  else if addr =? IRQ_STORM_REG_PERIOD_US then
    let s1 := set_period_us (u32 val) s in
    if ctrl_enable (control s1) then irq_storm_schedule_next now s1 else s1
  else s.

Definition irq_storm_realize (now : Z) (s : ISAIrqStormState)
  : ISAIrqStormState * option string :=
  if 15 <? isairq s then
    (s, Some "isa-irq-storm: irq must be in range [0..15]"%string)
  else if iosize s <? 0x0c then
    (s, Some "isa-irq-storm: iosize must be at least 0x0c"%string)
  else
    let s1 := set_host (Some (iobase s, iosize s)) true (Some (isairq s)) s in
    let s2 :=
      if start_enabled s1 then
        irq_storm_schedule_next now
          (set_control (u8 (Z.lor (control s1) IRQ_STORM_CTRL_ENABLE)) s1)
      else s1 in
    (s2, None).

Definition instance_init (base size line nburst period : Z)
  (enabled : bool) : ISAIrqStormState :=
  {| iobase := base; iosize := size; isairq := line; burst := nburst;
     period_us := period; start_enabled := enabled; control := 0;
     pulses_emitted := 0; io := None; timer := false; expire_time := None;
     irq := None; irq_trace := [] |}.

End Legacy.

(** The first consumer's read of the pulse counter: LO, then HI, once. *)
Definition read_u64_lohi_once (b : bus) (n : nat) (lo_port hi_port : Z) : Z :=
  let pulses_lo := io_in32 (b n) lo_port in
  let pulses_hi := io_in32 (b (n + 1)%nat) hi_port in
  Z.lor (u64 (Z.shiftl pulses_hi 32)) pulses_lo.

(** A current-version device that was never put in level mode and a
    first-version device with the same configuration, the same pulse
    count and the same history on the line.  The timers are left out:
    the two versions schedule differently. *)
Definition same_storm (s : ISAIrqStormState) (l : Legacy.ISAIrqStormState)
  : Prop :=
  isairq s = Legacy.isairq l /\ burst s = Legacy.burst l /\
  period_us s = Legacy.period_us l /\ control s = Legacy.control l /\
  ctrl_level (control s) = false /\ irq_asserted s = false /\
  pulses_emitted s = Legacy.pulses_emitted l /\
  irq_trace s = Legacy.irq_trace l.

(** ** More sample inputs *)

(** [edge_device] after the guest has written [2 ^ 29] to PERIOD_US at
    time 50. *)
Definition zero_period_device : ISAIrqStormState :=
  irq_storm_write 50 IRQ_STORM_REG_PERIOD_US (2 ^ 29) edge_device.

(** The first-version counterpart of [edge_device]. *)
Definition legacy_edge_device : Legacy.ISAIrqStormState :=
  fst (Legacy.irq_storm_realize 0
         (Legacy.instance_init 0x560 0x10 5 5 100 true)).

(** A boot info with 100 empty slots and four untypeds: device memory,
    a small one and two large ones. *)
Definition sample_bootinfo : seL4_BootInfo :=
  {| empty := {| start := 100; end_ := 200 |};
     untyped := {| start := 10; end_ := 14 |};
     untypedList :=
       [ {| sizeBits := 12; isDevice := 1 |};
         {| sizeBits := 4; isDevice := 0 |};
         {| sizeBits := 20; isDevice := 0 |};
         {| sizeBits := 24; isDevice := 0 |} ] |}.
(** ** Facts about the machine integers *)

Lemma u8_range x : 0 <= u8 x < 2 ^ 8.
Proof. unfold u8. apply Z.mod_pos_bound. lia. Qed.

Lemma u32_range x : 0 <= u32 x < 2 ^ 32.
Proof. unfold u32. apply Z.mod_pos_bound. lia. Qed.

Lemma u64_range x : 0 <= u64 x < 2 ^ 64.
Proof. unfold u64. apply Z.mod_pos_bound. lia. Qed.

Lemma s64_range x : - 2 ^ 63 <= s64 x < 2 ^ 63.
Proof.
  unfold s64.
  assert (H := Z.mod_pos_bound (x + 2 ^ 63) (2 ^ 64)). lia.
Qed.

Lemma u8_small x : 0 <= x < 2 ^ 8 -> u8 x = x.
Proof. intros H. unfold u8. now apply Z.mod_small. Qed.

Lemma u32_small x : 0 <= x < 2 ^ 32 -> u32 x = x.
Proof. intros H. unfold u32. now apply Z.mod_small. Qed.

Lemma u64_small x : 0 <= x < 2 ^ 64 -> u64 x = x.
Proof. intros H. unfold u64. now apply Z.mod_small. Qed.

Lemma s64_small x : - 2 ^ 63 <= x < 2 ^ 63 -> s64 x = x.
Proof. intros H. unfold s64. rewrite Z.mod_small; lia. Qed.

(** An increment modulo [2 ^ 64] always changes the value. *)
Lemma u64_succ_neq x : u64 (x + 1) <> x.
Proof.
  unfold u64. intros H.
  assert (R := Z.mod_pos_bound (x + 1) (2 ^ 64)).
  destruct (Z.eq_dec x (2 ^ 64 - 1)) as [-> | N].
  - vm_compute in H. discriminate.
  - rewrite Z.mod_small in H; lia.
Qed.

(** The two control bits: masking leaves one of four values. *)
Lemma ctrl_mask_cases val :
  let c := u8 (Z.land val (Z.lor IRQ_STORM_CTRL_ENABLE IRQ_STORM_CTRL_LEVEL)) in
  c = 0 \/ c = 1 \/ c = 2 \/ c = 3.
Proof.
  cbv zeta.
  replace (Z.lor IRQ_STORM_CTRL_ENABLE IRQ_STORM_CTRL_LEVEL)
    with (Z.ones 2) by reflexivity.
  rewrite Z.land_ones by lia.
  assert (H := Z.mod_pos_bound val (2 ^ 2)).
  rewrite u8_small; lia.
Qed.

Lemma ctrl_mask_enable val :
  ctrl_enable
    (u8 (Z.land val (Z.lor IRQ_STORM_CTRL_ENABLE IRQ_STORM_CTRL_LEVEL)))
  = Z.testbit val 0.
Proof.
  replace (Z.lor IRQ_STORM_CTRL_ENABLE IRQ_STORM_CTRL_LEVEL)
    with (Z.ones 2) by reflexivity.
  rewrite Z.land_ones by lia.
  assert (H := Z.mod_pos_bound val (2 ^ 2)).
  rewrite u8_small by lia.
  rewrite Z.bit0_odd.
  rewrite (Z.div_mod val (2 ^ 2)) at 2 by lia.
  replace (2 ^ 2 * (val / 2 ^ 2) + val mod 2 ^ 2)
    with (val mod 2 ^ 2 + 2 * (2 * (val / 2 ^ 2))) by lia.
  rewrite Z.odd_add_mul_2.
  assert (C : val mod 2 ^ 2 = 0 \/ val mod 2 ^ 2 = 1 \/
              val mod 2 ^ 2 = 2 \/ val mod 2 ^ 2 = 3) by lia.
  destruct C as [-> | [-> | [-> | ->]]]; reflexivity.
Qed.

#[global] Arguments u8 : simpl never.
#[global] Arguments u32 : simpl never.
#[global] Arguments u64 : simpl never.
#[global] Arguments s64 : simpl never.

Create HintDb ranges.
#[global] Hint Resolve u8_range u32_range u64_range s64_range : ranges.

(** ** The invariant holds in every reachable state *)

Ltac inv_fields H :=
  try exact H; destruct H; constructor; simpl; intros;
  first [ assumption | solve [auto with ranges] | lia | congruence
        | discriminate | tauto | idtac ].

Lemma repeat_shift {A} (x : A) n : forall l,
  (repeat x n ++ x :: l = x :: repeat x n ++ l)%list.
Proof.
  induction n as [| n IH]; intros l; simpl.
  - reflexivity.
  - now rewrite IH.
Qed.

Lemma pulse_loop_trace n : forall s,
  pulse_loop n s = set_irq_trace (repeat Pulse n ++ irq_trace s) s.
Proof.
  induction n as [| n IH]; intros s; simpl.
  - destruct s; reflexivity.
  - rewrite IH. unfold qemu_irq_pulse, set_irq_trace; simpl.
    now rewrite repeat_shift.
Qed.

Lemma Inv_deassert s : Inv s -> Inv (irq_storm_irq_deassert s).
Proof.
  intros H. unfold irq_storm_irq_deassert.
  destruct (irq_asserted s) eqn:A; inv_fields H.
Qed.

Lemma Inv_timer_del s : Inv s -> Inv (timer_del s).
Proof.
  intros H. inv_fields H.
Qed.

Lemma Inv_schedule_from_now now s :
  Inv s -> Inv (irq_storm_schedule_from_now now s).
Proof.
  intros H. unfold irq_storm_schedule_from_now.
  destruct (ctrl_enable (control s)) eqn:E; simpl; inv_fields H.
Qed.

Lemma write_ctrl_masked now val s :
  write_ctrl now val s =
  write_ctrl now
    (u8 (Z.land val (Z.lor IRQ_STORM_CTRL_ENABLE IRQ_STORM_CTRL_LEVEL))) s.
Proof.
  unfold write_ctrl.
  assert (C := ctrl_mask_cases val). cbv zeta in C.
  assert (E : u8 (Z.land
                (u8 (Z.land val
                       (Z.lor IRQ_STORM_CTRL_ENABLE IRQ_STORM_CTRL_LEVEL)))
                (Z.lor IRQ_STORM_CTRL_ENABLE IRQ_STORM_CTRL_LEVEL)) =
              u8 (Z.land val
                    (Z.lor IRQ_STORM_CTRL_ENABLE IRQ_STORM_CTRL_LEVEL)))
    by (destruct C as [-> | [-> | [-> | ->]]]; reflexivity).
  now rewrite E.
Qed.

(** An asserted line means both control bits are set. *)
Lemma Inv_asserted s :
  Inv s -> irq_asserted s = true -> control s = 3.
Proof.
  intros H A.
  assert (E : ctrl_enable (control s) = true).
  { destruct (ctrl_enable (control s)) eqn:E; [reflexivity |].
    rewrite (inv_disabled s H E) in A. discriminate. }
  assert (L : ctrl_level (control s) = true).
  { destruct (ctrl_level (control s)) eqn:L; [reflexivity |].
    rewrite (inv_edge s H L) in A. discriminate. }
  assert (O : control s = 0 \/ control s = 1 \/ control s = 2 \/ control s = 3)
    by (destruct H; lia).
  destruct O as [O | [O | [O | O]]]; rewrite O in E, L;
    try discriminate; assumption.
Qed.

Lemma Inv_write_ctrl now val s : Inv s -> Inv (write_ctrl now val s).
Proof.
  intros H. rewrite write_ctrl_masked.
  assert (O : control s = 0 \/ control s = 1 \/ control s = 2 \/ control s = 3)
    by (destruct H; lia).
  assert (A := Inv_asserted s H).
  destruct s as [? ? ? ? ? ? ? ctl asserted ? ? ? ? ? ? ? ? ? ?].
  simpl in O, A.
  destruct asserted.
  - rewrite (A eq_refl) in *. clear A O.
    destruct (ctrl_mask_cases val) as [-> | [-> | [-> | ->]]];
      cbn; inv_fields H.
  - clear A.
    destruct (ctrl_mask_cases val) as [-> | [-> | [-> | ->]]],
      O as [-> | [-> | [-> | ->]]]; cbn; inv_fields H.
Qed.

Lemma Inv_write_burst val s : Inv s -> Inv (write_burst val s).
Proof.
  intros H. unfold write_burst.
  destruct (negb (u32 val =? burst s)); inv_fields H.
Qed.

Lemma Inv_write_period_us now val s : Inv s -> Inv (write_period_us now val s).
Proof.
  intros H. unfold write_period_us.
  destruct (negb (u32 val =? period_us s)); [| exact H].
  cbv zeta.
  assert (H1 : Inv (set_config_writes (u64 (config_writes s + 1))
                      (set_period_us (u32 val) s))) by inv_fields H.
  destruct (ctrl_enable _); [now apply Inv_schedule_from_now | exact H1].
Qed.

Lemma Inv_write_ack val s : Inv s -> Inv (write_ack val s).
Proof.
  intros H. unfold write_ack.
  destruct (negb (val =? 0)); [now apply Inv_deassert | exact H].
Qed.

Lemma Inv_write now addr val s : Inv s -> Inv (irq_storm_write now addr val s).
Proof.
  intros H. unfold irq_storm_write.
  repeat match goal with
         | |- Inv (if ?b then _ else _) => destruct b
         end;
    auto using Inv_write_ctrl, Inv_write_burst, Inv_write_period_us,
      Inv_write_ack.
Qed.

Lemma line_high_pulses n tr :
  line_high tr = false -> line_high (repeat Pulse n ++ tr) = false.
Proof. destruct n; simpl; auto. Qed.

Lemma Inv_schedule_next now s s' :
  Inv s -> irq_storm_schedule_next now s = Some s' -> Inv s'.
Proof.
  intros H. unfold irq_storm_schedule_next.
  destruct (ctrl_enable (control s)) eqn:E; simpl.
  - destruct (_ <=? now).
    + destruct (_ =? 0); [discriminate |].
      intros [= <-]. inv_fields H.
    + intros [= <-]. inv_fields H.
  - intros [= <-]. exact H.
Qed.

Lemma Inv_timer_cb now s s' :
  Inv s -> irq_storm_timer_cb now s = Some s' -> Inv s'.
Proof.
  intros H. unfold irq_storm_timer_cb.
  destruct (ctrl_enable (control s)) eqn:E; simpl.
  - apply Inv_schedule_next.
    destruct (ctrl_level (control s)) eqn:L.
    + destruct (irq_asserted s) eqn:A; simpl; inv_fields H.
    + rewrite pulse_loop_trace.
      assert (T : line_high (irq_trace s) = false)
        by (destruct H as [? ? ? ? ? ? ? ? ? He Hl]; rewrite Hl; auto).
      assert (T' := line_high_pulses (Z.to_nat (burst_pulses (set_timer_cb_count (u64 (timer_cb_count s + 1)) s))) _ T).
      inv_fields H.
  - intros [= <-]. exact H.
Qed.

Lemma Inv_realize now base size line nburst period enabled level s :
  0 <= base < 2 ^ 32 -> 0 <= size < 2 ^ 32 -> 0 <= line < 2 ^ 32 ->
  0 <= nburst < 2 ^ 32 -> 0 <= period < 2 ^ 32 ->
  irq_storm_realize now
    (instance_init base size line nburst period enabled level) = (s, None) ->
  Inv s.
Proof.
  intros Hb Hs Hl Hn Hp. unfold irq_storm_realize; simpl.
  destruct (15 <? line) eqn:E1; [discriminate |].
  destruct (size <? 32) eqn:E2; [discriminate |].
  apply Z.ltb_ge in E1, E2.
  destruct level, enabled; cbn; intros [= <-]; constructor; simpl;
    auto with ranges; try lia; try congruence; try discriminate.
Qed.

Theorem reachable_Inv t s : reachable t s -> Inv s.
Proof.
  induction 1 as [? ? ? ? ? ? ? ? ? Hb Hs Hl Hn Hp _ R | | ? ? ? ? ? _ IH _ _ _ F].
  - exact (Inv_realize _ _ _ _ _ _ _ _ _ Hb Hs Hl Hn Hp R).
  - now apply Inv_write.
  - exact (Inv_timer_cb _ _ _ (Inv_timer_del _ IH) F).
Qed.

(** ** The scheduler and the timer callback *)

#[global] Arguments irq_storm_period_ns : simpl never.
#[global] Arguments burst_pulses : simpl never.

Lemma period_ns_range s : 0 <= irq_storm_period_ns s < 2 ^ 32.
Proof.
  unfold irq_storm_period_ns.
  assert (H := u32_range (Z.max 1 (period_us s) * SCALE_US)).
  rewrite u64_small; lia.
Qed.

Lemma burst_pulses_range s : 1 <= burst_pulses s <= IRQ_STORM_MAX_BURST.
Proof. unfold burst_pulses, IRQ_STORM_MAX_BURST. lia. Qed.

(** The scheduler only moves the deadline and re-arms the timer there. *)
Lemma schedule_next_shape now s s' :
  ctrl_enable (control s) = true ->
  irq_storm_schedule_next now s = Some s' ->
  s' = timer_mod (next_deadline_ns s')
         (set_next_deadline_ns (next_deadline_ns s') s).
Proof.
  intros E. unfold irq_storm_schedule_next. rewrite E. simpl.
  destruct (_ <=? now).
  - destruct (_ =? 0); [discriminate |]. intros [= <-]. reflexivity.
  - intros [= <-]. reflexivity.
Qed.

(** With a non-zero period the scheduler always returns. *)
Lemma schedule_next_total now s :
  irq_storm_period_ns s <> 0 ->
  exists s', irq_storm_schedule_next now s = Some s'.
Proof.
  intros P. unfold irq_storm_schedule_next.
  destruct (negb _); [eauto |]. cbv zeta.
  destruct (_ <=? now); [| eauto].
  apply Z.eqb_neq in P. rewrite P. eauto.
Qed.

(** The deadline the scheduler computes when nothing overflows: one
    period later, and if that is not in the future, further by the whole
    periods that have gone by plus one. *)
Lemma schedule_next_deadline now s s' :
  ctrl_enable (control s) = true ->
  irq_storm_period_ns s <> 0 ->
  0 <= next_deadline_ns s -> 0 <= now ->
  next_deadline_ns s + irq_storm_period_ns s < 2 ^ 63 ->
  now + irq_storm_period_ns s < 2 ^ 63 ->
  irq_storm_schedule_next now s = Some s' ->
  next_deadline_ns s' =
    let d1 := next_deadline_ns s + irq_storm_period_ns s in
    if d1 <=? now
    then d1 + ((now - d1) / irq_storm_period_ns s + 1) * irq_storm_period_ns s
    else d1.
Proof.
  intros E P D N DP NP. unfold irq_storm_schedule_next. rewrite E. simpl.
  assert (R := period_ns_range s).
  set (p := irq_storm_period_ns s) in *.
  rewrite (u64_small (next_deadline_ns s)) by lia.
  rewrite (s64_small (next_deadline_ns s + p)) by lia.
  destruct (next_deadline_ns s + p <=? now) eqn:L.
  - apply Z.eqb_neq in P. rewrite P. intros [= <-]. simpl.
    apply Z.leb_le in L. apply Z.eqb_neq in P.
    set (d1 := next_deadline_ns s + p) in *.
    assert (Q0 : 0 <= (now - d1) / p) by (apply Z.div_pos; lia).
    assert (Q1 : p * ((now - d1) / p) <= now - d1)
      by (apply Z.mul_div_le; lia).
    rewrite (s64_small (now - d1)) by lia.
    rewrite (u64_small (now - d1)) by lia.
    rewrite (u64_small ((now - d1) / p + 1)) by nia.
    rewrite (u64_small (((now - d1) / p + 1) * p)) by nia.
    rewrite (u64_small d1) by lia.
    rewrite s64_small by nia.
    reflexivity.
  - intros [= <-]. reflexivity.
Qed.

(** The non-zero period is a real condition: the 32-bit product wraps,
    a period register of [2 ^ 29] microseconds gives a period of zero
    nanoseconds, and a callback at or after the deadline then stops on
    the division. *)
Example zero_period_stops :
  irq_storm_period_ns (set_period_us (2 ^ 29) edge_device) = 0 /\
  irq_storm_timer_cb 100000 (set_period_us (2 ^ 29) edge_device) = None.
Proof. split; vm_compute; reflexivity. Qed.

(** The same 32-bit product shortens every period above 4294967
    microseconds: five seconds become 705032704 nanoseconds. *)
Example period_product_wraps :
  irq_storm_period_ns (set_period_us 5000000 edge_device) = 705032704.
Proof. vm_compute; reflexivity. Qed.

(** What the callback does before it reschedules, case by case. *)
Lemma timer_cb_disabled now s :
  ctrl_enable (control s) = false -> irq_storm_timer_cb now s = Some s.
Proof. intros E. unfold irq_storm_timer_cb. now rewrite E. Qed.

Lemma timer_cb_level_idle now s :
  ctrl_enable (control s) = true -> ctrl_level (control s) = true ->
  irq_asserted s = false ->
  irq_storm_timer_cb now s =
  irq_storm_schedule_next now
    (set_pulses_emitted (u64 (pulses_emitted s + 1))
       (set_irq_asserted true
          (qemu_irq_raise
             (set_timer_cb_count (u64 (timer_cb_count s + 1)) s)))).
Proof.
  intros E L A. unfold irq_storm_timer_cb. rewrite E. simpl.
  now rewrite L, A.
Qed.

Lemma timer_cb_level_held now s :
  ctrl_enable (control s) = true -> ctrl_level (control s) = true ->
  irq_asserted s = true ->
  irq_storm_timer_cb now s =
  irq_storm_schedule_next now
    (set_timer_cb_count (u64 (timer_cb_count s + 1)) s).
Proof.
  intros E L A. unfold irq_storm_timer_cb. rewrite E. simpl.
  now rewrite L, A.
Qed.

Lemma timer_cb_edge now s :
  ctrl_enable (control s) = true -> ctrl_level (control s) = false ->
  irq_storm_timer_cb now s =
  irq_storm_schedule_next now
    (set_pulses_emitted (u64 (pulses_emitted s + burst_pulses s))
       (set_irq_trace
          (repeat Pulse (Z.to_nat (burst_pulses s)) ++ irq_trace s)
          (set_timer_cb_count (u64 (timer_cb_count s + 1)) s))).
Proof.
  intros E L. unfold irq_storm_timer_cb. rewrite E. simpl. rewrite L.
  rewrite pulse_loop_trace. reflexivity.
Qed.

(** The callback never touches the configuration. *)
Lemma timer_cb_config now s s' :
  irq_storm_timer_cb now s = Some s' ->
  control s' = control s /\ period_us s' = period_us s /\
  burst s' = burst s /\ config_writes s' = config_writes s /\
  enable_toggle_count s' = enable_toggle_count s.
Proof.
  destruct (ctrl_enable (control s)) eqn:E.
  - destruct (ctrl_level (control s)) eqn:L.
    + destruct (irq_asserted s) eqn:A.
      * rewrite timer_cb_level_held by assumption. intros F.
        apply schedule_next_shape in F; [| exact E].
        rewrite F. simpl. auto.
      * rewrite timer_cb_level_idle by assumption. intros F.
        apply schedule_next_shape in F; [| exact E].
        rewrite F. simpl. auto.
    + rewrite timer_cb_edge by assumption. intros F.
      apply schedule_next_shape in F; [| exact E].
      rewrite F. simpl. auto.
  - rewrite timer_cb_disabled by assumption. intros [= <-]. auto.
Qed.

Lemma timer_cb_period now s s' :
  irq_storm_timer_cb now s = Some s' ->
  irq_storm_period_ns s' = irq_storm_period_ns s.
Proof.
  intros F. apply timer_cb_config in F as (_ & P & _).
  unfold irq_storm_period_ns. now rewrite P.
Qed.

Lemma timer_cb_total now s :
  irq_storm_period_ns s <> 0 ->
  exists s', irq_storm_timer_cb now s = Some s'.
Proof.
  intros P.
  destruct (ctrl_enable (control s)) eqn:E.
  - destruct (ctrl_level (control s)) eqn:L.
    + destruct (irq_asserted s) eqn:A.
      * rewrite timer_cb_level_held by assumption.
        now apply schedule_next_total.
      * rewrite timer_cb_level_idle by assumption.
        now apply schedule_next_total.
    + rewrite timer_cb_edge by assumption. now apply schedule_next_total.
  - rewrite timer_cb_disabled by assumption. eauto.
Qed.

(** With a period of zero nanoseconds the scheduler stops on the division
    whenever the deadline is not in the future, and so does the
    callback. *)
Lemma schedule_next_zero_period now s :
  ctrl_enable (control s) = true ->
  irq_storm_period_ns s = 0 ->
  0 <= next_deadline_ns s <= now -> now < 2 ^ 63 ->
  irq_storm_schedule_next now s = None.
Proof.
  intros E P D N. unfold irq_storm_schedule_next. rewrite E, P. simpl.
  rewrite (u64_small (next_deadline_ns s)) by lia.
  rewrite Z.add_0_r, s64_small by lia.
  destruct (Z.leb_spec (next_deadline_ns s) now); [reflexivity | lia].
Qed.

Lemma timer_cb_zero_period now s :
  ctrl_enable (control s) = true ->
  irq_storm_period_ns s = 0 ->
  0 <= next_deadline_ns s <= now -> now < 2 ^ 63 ->
  irq_storm_timer_cb now s = None.
Proof.
  intros E P D N.
  destruct (ctrl_level (control s)) eqn:L.
  - destruct (irq_asserted s) eqn:A.
    + rewrite timer_cb_level_held by assumption.
      now apply schedule_next_zero_period.
    + rewrite timer_cb_level_idle by assumption.
      now apply schedule_next_zero_period.
  - rewrite timer_cb_edge by assumption.
    now apply schedule_next_zero_period.
Qed.

(** ** Level mode: one assertion per acknowledgement *)

Lemma u64_add_idemp a b : u64 (u64 a + b) = u64 (a + b).
Proof. unfold u64. apply Z.add_mod_idemp_l. lia. Qed.

Lemma fires_level nows : forall s,
  ctrl_enable (control s) = true -> ctrl_level (control s) = true ->
  irq_storm_period_ns s <> 0 ->
  exists s',
    fires nows s = Some s' /\
    (irq_asserted s = true ->
     irq_trace s' = irq_trace s /\ pulses_emitted s' = pulses_emitted s /\
     irq_asserted s' = true) /\
    (irq_asserted s = false -> nows <> [] ->
     irq_trace s' = Raise :: irq_trace s /\
     pulses_emitted s' = u64 (pulses_emitted s + 1) /\
     irq_asserted s' = true) /\
    u64 (timer_cb_count s') =
    u64 (timer_cb_count s + Z.of_nat (length nows)).
Proof.
  induction nows as [| now rest IH]; intros s E L P.
  - exists s. simpl. rewrite Z.add_0_r.
    repeat split; auto; congruence.
  - destruct (timer_cb_total now s P) as [s1 F].
    assert (C := timer_cb_config now s s1 F). destruct C as (C & _).
    assert (P1 := timer_cb_period now s s1 F).
    destruct (IH s1) as (s' & R & Hheld & _ & Hcount);
      [congruence | congruence | congruence |].
    exists s'. cbn [fires]. rewrite F. split; [exact R |].
    assert (Len : Z.of_nat (length (now :: rest)) =
                  1 + Z.of_nat (length rest))
      by (cbn [length]; lia).
    rewrite Len. clear Len.
    destruct (irq_asserted s) eqn:A.
    + rewrite timer_cb_level_held in F by assumption.
      apply schedule_next_shape in F; [| exact E].
      assert (A1 : irq_asserted s1 = true) by (rewrite F; exact A).
      destruct (Hheld A1) as (T & Q & A').
      assert (T1 : irq_trace s1 = irq_trace s) by (rewrite F; reflexivity).
      assert (Q1 : pulses_emitted s1 = pulses_emitted s)
        by (rewrite F; reflexivity).
      assert (N1 : timer_cb_count s1 = u64 (timer_cb_count s + 1))
        by (rewrite F; reflexivity).
      repeat split; try congruence.
      rewrite Hcount, N1, u64_add_idemp. f_equal. lia.
    + rewrite timer_cb_level_idle in F by assumption.
      apply schedule_next_shape in F; [| exact E].
      assert (A1 : irq_asserted s1 = true) by (rewrite F; reflexivity).
      destruct (Hheld A1) as (T & Q & A').
      assert (T1 : irq_trace s1 = Raise :: irq_trace s)
        by (rewrite F; reflexivity).
      assert (Q1 : pulses_emitted s1 = u64 (pulses_emitted s + 1))
        by (rewrite F; reflexivity).
      assert (N1 : timer_cb_count s1 = u64 (timer_cb_count s + 1))
        by (rewrite F; reflexivity).
      repeat split; try congruence.
      rewrite Hcount, N1, u64_add_idemp. f_equal. lia.
Qed.

(** C2.  In level mode, on an enabled device whose period is not zero,
    a timer callback that finds the line idle raises it, sets
    [irq_asserted] and adds exactly one to [pulses_emitted]; one that
    finds the line held makes no call on the line and leaves
    [pulses_emitted] alone; both add one to [timer_cb_count].  Any run of
    consecutive callbacks therefore raises the line at most once and adds
    at most one to [pulses_emitted], while [timer_cb_count] counts every
    callback. *)
Theorem C2_level_single_assert now nows s :
  ctrl_enable (control s) = true -> ctrl_level (control s) = true ->
  irq_storm_period_ns s <> 0 ->
  (exists s',
     irq_storm_timer_cb now s = Some s' /\
     timer_cb_count s' = u64 (timer_cb_count s + 1) /\
     irq_asserted s' = true /\
     if irq_asserted s
     then irq_trace s' = irq_trace s /\
          pulses_emitted s' = pulses_emitted s
     else irq_trace s' = Raise :: irq_trace s /\
          line_high (irq_trace s') = true /\
          pulses_emitted s' = u64 (pulses_emitted s + 1)) /\
  (exists s' k,
     fires nows s = Some s' /\ (k <= 1)%nat /\
     irq_trace s' = repeat Raise k ++ irq_trace s /\
     u64 (pulses_emitted s') = u64 (pulses_emitted s + Z.of_nat k) /\
     u64 (timer_cb_count s') =
     u64 (timer_cb_count s + Z.of_nat (length nows))).
Proof.
  intros E L P. split.
  - destruct (timer_cb_total now s P) as [s' F]. exists s'.
    split; [exact F |].
    destruct (irq_asserted s) eqn:A.
    + rewrite timer_cb_level_held in F by assumption.
      apply schedule_next_shape in F; [| exact E].
      rewrite F. simpl. auto.
    + rewrite timer_cb_level_idle in F by assumption.
      apply schedule_next_shape in F; [| exact E].
      rewrite F. simpl. auto.
  - destruct (fires_level nows s E L P) as (s' & R & Hheld & Hidle & Hcount).
    destruct (irq_asserted s) eqn:A.
    + destruct (Hheld eq_refl) as (T & Q & _).
      exists s', 0%nat. simpl. rewrite Z.add_0_r, T, Q. auto.
    + destruct nows as [| now0 rest].
      * injection R as <-. exists s, 0%nat. simpl.
        rewrite !Z.add_0_r. auto.
      * destruct (Hidle eq_refl) as (T & Q & _); [discriminate |].
        exists s', 1%nat. simpl. rewrite T, Q.
        repeat split; auto.
        unfold u64. now rewrite Z.mod_mod by lia.
Qed.

(** ** Drift correction *)

(** Away from the zero period: on an enabled device whose period in
    nanoseconds is not zero, with clock values that do not overflow, one
    callback adds one to [timer_cb_count] and re-arms the timer once, at
    a deadline that lies in the future: the old deadline plus one period,
    or, when that has already passed, further in a single step by the
    whole periods gone by plus one.  If the callback runs [k] whole
    periods late, the new deadline is the old one plus [k + 1] periods;
    run 3.7 periods late, that is the old deadline plus 4 periods. *)
Lemma drift_correction_nonzero_period now s :
  ctrl_enable (control s) = true ->
  irq_storm_period_ns s <> 0 ->
  0 <= next_deadline_ns s -> 0 <= now ->
  next_deadline_ns s + irq_storm_period_ns s < 2 ^ 63 ->
  now + irq_storm_period_ns s < 2 ^ 63 ->
  exists s',
    irq_storm_timer_cb now s = Some s' /\
    timer_cb_count s' = u64 (timer_cb_count s + 1) /\
    expire_time s' = Some (next_deadline_ns s') /\
    let d := next_deadline_ns s in
    let p := irq_storm_period_ns s in
    let d' := next_deadline_ns s' in
    now < d' /\
    (now < d + p -> d' = d + p) /\
    (d + p <= now ->
     d' = d + p + ((now - (d + p)) / p + 1) * p /\ d' - p <= now) /\
    (forall k, 0 <= k -> k * p <= now - d < (k + 1) * p ->
               d' = d + (k + 1) * p) /\
    (10 * (now - d) = 37 * p -> d' = d + 4 * p).
Proof.
  intros E P D N DP NP.
  destruct (timer_cb_total now s P) as [s' F]. exists s'.
  split; [exact F |].
  assert (R := period_ns_range s).
  assert (Hs : exists s1,
             irq_storm_schedule_next now s1 = Some s' /\
             timer_cb_count s1 = u64 (timer_cb_count s + 1) /\
             next_deadline_ns s1 = next_deadline_ns s /\
             irq_storm_period_ns s1 = irq_storm_period_ns s /\
             ctrl_enable (control s1) = true).
  { destruct (ctrl_level (control s)) eqn:L.
    - destruct (irq_asserted s) eqn:A.
      + rewrite timer_cb_level_held in F by assumption. eauto 10.
      + rewrite timer_cb_level_idle in F by assumption. eauto 10.
    - rewrite timer_cb_edge in F by assumption. eauto 10. }
  destruct Hs as (s1 & F1 & N1 & D1 & P1 & E1).
  assert (Sh := schedule_next_shape now s1 s' E1 F1).
  assert (Dl := schedule_next_deadline now s1 s' E1).
  rewrite P1, D1 in Dl. specialize (Dl P D N DP NP F1). cbv zeta in Dl.
  split; [rewrite Sh; simpl; exact N1 |].
  split; [rewrite Sh; reflexivity |].
  cbv zeta.
  set (d := next_deadline_ns s) in *.
  set (p := irq_storm_period_ns s) in *.
  set (d' := next_deadline_ns s') in *.
  assert (Q0 : d + p <= now -> 0 <= (now - (d + p)) / p)
    by (intros; apply Z.div_pos; lia).
  assert (Q1 : p * ((now - (d + p)) / p) <= now - (d + p))
    by (apply Z.mul_div_le; lia).
  assert (Q2 : now - (d + p) < p * ((now - (d + p)) / p + 1)).
  { assert (M := Z.mod_pos_bound (now - (d + p)) p).
    assert (Dv := Z.div_mod (now - (d + p)) p). lia. }
  assert (Gen : forall k, 0 <= k -> k * p <= now - d < (k + 1) * p ->
                          d' = d + (k + 1) * p).
  { intros k K B.
    destruct (d + p <=? now) eqn:Late.
    - apply Z.leb_le in Late.
      assert (Qk : (now - (d + p)) / p = k - 1)
        by (symmetry; apply (Z.div_unique_pos _ _ _ (now - (d + p) - (k - 1) * p)); lia).
      rewrite Dl, Qk. lia.
    - apply Z.leb_gt in Late. assert (k = 0) by nia. subst k.
      rewrite Dl. lia. }
  destruct (d + p <=? now) eqn:Late.
  - apply Z.leb_le in Late.
    repeat split; try lia; try (rewrite Dl; lia); try exact Gen. 
    all: try (intros; apply (Gen 3); lia).
  - apply Z.leb_gt in Late.
    repeat split; try lia; try exact Gen; try (rewrite Dl; lia).
    all: try (intros; apply (Gen 3); lia).
Qed.

(** C3.  The period register takes any 32-bit value, and the product
    [MAX(1U, period_us) * SCALE_US] is computed in 32 bits.  After the
    guest has written [2 ^ 29] to PERIOD_US of the running edge device at
    time 50, the state is reachable and enabled, the period is zero
    nanoseconds and the timer is armed at the current time.  From then
    on the rescheduling stops on the division by the period: at no time
    from the deadline on does the scheduler or the callback return, so
    no next deadline is computed and the timer is not armed again. *)
Theorem C3_zero_period_divides :
  reachable 50 zero_period_device /\
  ctrl_enable (control zero_period_device) = true /\
  period_us zero_period_device = 2 ^ 29 /\
  irq_storm_period_ns zero_period_device = 0 /\
  next_deadline_ns zero_period_device = 50 /\
  expire_time zero_period_device = Some 50 /\
  irq_storm_schedule_next 50 zero_period_device = None /\
  step (Fire 50) (timer_del zero_period_device) = None /\
  forall now, 50 <= now < 2 ^ 63 ->
    irq_storm_schedule_next now zero_period_device = None /\
    irq_storm_timer_cb now zero_period_device = None /\
    irq_storm_timer_cb now (timer_del zero_period_device) = None.
Proof.
  assert (E : ctrl_enable (control zero_period_device) = true)
    by (vm_compute; reflexivity).
  assert (P : irq_storm_period_ns zero_period_device = 0)
    by (vm_compute; reflexivity).
  assert (D : next_deadline_ns zero_period_device = 50)
    by (vm_compute; reflexivity).
  split.
  { apply (reach_write 0 50 IRQ_STORM_REG_PERIOD_US (2 ^ 29)).
    - apply (reach_realize 0 0x560 0x20 5 5 100 true false);
        first [lia | vm_compute; reflexivity].
    - lia.
    - lia. }
  split; [exact E |].
  split; [vm_compute; reflexivity |].
  split; [exact P |].
  split; [exact D |].
  split; [vm_compute; reflexivity |].
  split; [vm_compute; reflexivity |].
  split; [vm_compute; reflexivity |].
  intros now N.
  split; [apply schedule_next_zero_period; try assumption; lia |].
  split; apply timer_cb_zero_period; try assumption; try lia.
  - change (next_deadline_ns (timer_del zero_period_device))
      with (next_deadline_ns zero_period_device). lia.
Qed.

(** ** Edge mode: burst accounting *)

Lemma burst_pulses_clamp s :
  burst_pulses s = clamp (burst s) 1 IRQ_STORM_MAX_BURST.
Proof.
  unfold burst_pulses, clamp, IRQ_STORM_MAX_BURST.
  destruct (burst s <? 1) eqn:A; [apply Z.ltb_lt in A; lia |].
  apply Z.ltb_ge in A.
  destruct (100000 <? burst s) eqn:B;
    [apply Z.ltb_lt in B | apply Z.ltb_ge in B]; lia.
Qed.

Lemma line_high_burst n tr :
  (0 < n)%nat -> line_high (repeat Pulse n ++ tr) = false.
Proof. destruct n; [lia | reflexivity]. Qed.

(** Fires happen on enabled devices only: the timer is never pending
    while ENABLE is clear. *)
Lemma pending_timer_enabled t s deadline :
  reachable t s -> expire_time s = Some deadline ->
  ctrl_enable (control s) = true.
Proof.
  intros R X. apply (inv_timer s (reachable_Inv t s R)). congruence.
Qed.

(** C4.  In edge mode, a timer callback on a running, enabled device
    whose period is not zero makes exactly
    [clamp (burst, 1, IRQ_STORM_MAX_BURST)] pulse calls on the line, with
    [IRQ_STORM_MAX_BURST = 100000], and adds that count to
    [pulses_emitted] (modulo [2 ^ 64], hence exactly that count while
    the counter does not wrap); afterwards the line is low and
    [irq_asserted] is clear.  With a burst of 5 the count is 5. *)
Theorem C4_edge_burst t now s :
  reachable t s ->
  ctrl_enable (control s) = true -> ctrl_level (control s) = false ->
  irq_storm_period_ns s <> 0 ->
  exists s',
    irq_storm_timer_cb now s = Some s' /\
    IRQ_STORM_MAX_BURST = 100000 /\
    let n := clamp (burst s) 1 IRQ_STORM_MAX_BURST in
    irq_trace s' = repeat Pulse (Z.to_nat n) ++ irq_trace s /\
    pulses_emitted s' = u64 (pulses_emitted s + n) /\
    (pulses_emitted s + n < 2 ^ 64 ->
     pulses_emitted s' = pulses_emitted s + n) /\
    line_high (irq_trace s') = false /\
    irq_asserted s' = false /\
    (burst s = 5 ->
     irq_trace s' = [Pulse; Pulse; Pulse; Pulse; Pulse] ++ irq_trace s /\
     pulses_emitted s' = u64 (pulses_emitted s + 5)).
Proof.
  intros R E L P.
  assert (I := reachable_Inv t s R).
  destruct (timer_cb_total now s P) as [s' F]. exists s'.
  split; [exact F |]. split; [reflexivity |].
  rewrite timer_cb_edge in F by assumption.
  apply schedule_next_shape in F; [| exact E].
  rewrite <- burst_pulses_clamp. cbv zeta.
  assert (B := burst_pulses_range s).
  assert (T : irq_trace s' =
              repeat Pulse (Z.to_nat (burst_pulses s)) ++ irq_trace s)
    by (rewrite F; reflexivity).
  assert (Q : pulses_emitted s' = u64 (pulses_emitted s + burst_pulses s))
    by (rewrite F; reflexivity).
  assert (A : irq_asserted s' = irq_asserted s) by (rewrite F; reflexivity).
  split; [exact T |]. split; [exact Q |].
  split.
  { intros W. rewrite Q. apply u64_small.
    destruct I as [_ _ _ _ Hp]. lia. }
  split; [rewrite T; apply line_high_burst; lia |].
  split; [rewrite A; now apply (inv_edge s I) |].
  intros B5. rewrite T, Q. unfold burst_pulses. rewrite B5.
  split; reflexivity.
Qed.

(** ** Register writes *)

Ltac ctrl_cases s c :=
  unfold write_ctrl; cbv zeta;
  set (c := u8 (Z.land _ _)); clearbody c;
  unfold irq_storm_irq_deassert, irq_storm_schedule_from_now;
  let Q := fresh "Q" in
  destruct (c =? control s) eqn:Q;
  [ apply Z.eqb_eq in Q; subst c | apply Z.eqb_neq in Q ];
  simpl negb; cbv iota;
  repeat match goal with
         | |- context [ctrl_level ?x] =>
             is_var x; destruct (ctrl_level x) eqn:?
         | |- context [ctrl_enable ?x] =>
             is_var x; destruct (ctrl_enable x) eqn:?
         | |- context [ctrl_level (control s)] =>
             destruct (ctrl_level (control s)) eqn:?
         | |- context [ctrl_enable (control s)] =>
             destruct (ctrl_enable (control s)) eqn:?
         | |- context [irq_asserted s] =>
             destruct (irq_asserted s) eqn:?
         | _ => progress simpl
         end.

Lemma write_ctrl_control now val s :
  control (write_ctrl now val s) =
  u8 (Z.land val (Z.lor IRQ_STORM_CTRL_ENABLE IRQ_STORM_CTRL_LEVEL)).
Proof. ctrl_cases s c; try reflexivity; congruence. Qed.

(** What a CTRL write does to the counters. *)
Lemma write_ctrl_counters now val s :
  let c := u8 (Z.land val (Z.lor IRQ_STORM_CTRL_ENABLE IRQ_STORM_CTRL_LEVEL)) in
  config_writes (write_ctrl now val s) =
    (if c =? control s then config_writes s
     else u64 (config_writes s + 1)) /\
  enable_toggle_count (write_ctrl now val s) =
    (if Bool.eqb (ctrl_enable c) (ctrl_enable (control s))
     then enable_toggle_count s
     else u64 (enable_toggle_count s + 1)) /\
  pulses_emitted (write_ctrl now val s) = pulses_emitted s /\
  timer_cb_count (write_ctrl now val s) = timer_cb_count s.
Proof.
  cbv zeta. ctrl_cases s c; rewrite ?Z.eqb_refl; auto; try congruence.
  all: destruct (c =? control s) eqn:Q';
    [apply Z.eqb_eq in Q'; congruence | auto].
Qed.

Lemma write_burst_counters val s :
  config_writes (write_burst val s) =
    (if u32 val =? burst s then config_writes s
     else u64 (config_writes s + 1)) /\
  enable_toggle_count (write_burst val s) = enable_toggle_count s /\
  pulses_emitted (write_burst val s) = pulses_emitted s /\
  timer_cb_count (write_burst val s) = timer_cb_count s.
Proof.
  unfold write_burst. destruct (u32 val =? burst s); simpl; auto.
Qed.

Lemma write_period_us_counters now val s :
  config_writes (write_period_us now val s) =
    (if u32 val =? period_us s then config_writes s
     else u64 (config_writes s + 1)) /\
  enable_toggle_count (write_period_us now val s) = enable_toggle_count s /\
  pulses_emitted (write_period_us now val s) = pulses_emitted s /\
  timer_cb_count (write_period_us now val s) = timer_cb_count s.
Proof.
  unfold write_period_us, irq_storm_schedule_from_now.
  destruct (u32 val =? period_us s); simpl; auto.
  destruct (ctrl_enable (control s)); simpl; auto.
Qed.

Lemma write_ack_counters val s :
  config_writes (write_ack val s) = config_writes s /\
  enable_toggle_count (write_ack val s) = enable_toggle_count s /\
  pulses_emitted (write_ack val s) = pulses_emitted s /\
  timer_cb_count (write_ack val s) = timer_cb_count s.
Proof.
  unfold write_ack, irq_storm_irq_deassert.
  destruct (val =? 0); simpl; auto.
  destruct (irq_asserted s); simpl; auto.
Qed.

(** C5.  Configuration accounting is debounced.  A CTRL write adds one
    to [config_writes] exactly when the masked value differs from the
    stored control value, so a second write of the same value adds
    nothing; a BURST or PERIOD_US write adds one exactly when the written
    32-bit value differs from the stored one; a CTRL write adds one to
    [enable_toggle_count] exactly when the ENABLE bit changes, in either
    direction.  Adding one (modulo [2 ^ 64]) always changes a counter. *)
Theorem C5_debounced_accounting now now' val s :
  let c := u8 (Z.land val (Z.lor IRQ_STORM_CTRL_ENABLE IRQ_STORM_CTRL_LEVEL)) in
  let cw := config_writes s in
  config_writes (irq_storm_write now IRQ_STORM_REG_CTRL val s) =
    (if c =? control s then cw else u64 (cw + 1)) /\
  config_writes
    (irq_storm_write now' IRQ_STORM_REG_CTRL val
       (irq_storm_write now IRQ_STORM_REG_CTRL val s)) =
    config_writes (irq_storm_write now IRQ_STORM_REG_CTRL val s) /\
  config_writes (irq_storm_write now IRQ_STORM_REG_BURST val s) =
    (if u32 val =? burst s then cw else u64 (cw + 1)) /\
  config_writes (irq_storm_write now IRQ_STORM_REG_PERIOD_US val s) =
    (if u32 val =? period_us s then cw else u64 (cw + 1)) /\
  enable_toggle_count (irq_storm_write now IRQ_STORM_REG_CTRL val s) =
    (if Bool.eqb (Z.testbit val 0) (ctrl_enable (control s))
     then enable_toggle_count s
     else u64 (enable_toggle_count s + 1)) /\
  (forall x, u64 (x + 1) <> x).
Proof.
  cbv zeta.
  change (irq_storm_write now IRQ_STORM_REG_CTRL val s)
    with (write_ctrl now val s).
  change (irq_storm_write now' IRQ_STORM_REG_CTRL val (write_ctrl now val s))
    with (write_ctrl now' val (write_ctrl now val s)).
  change (irq_storm_write now IRQ_STORM_REG_BURST val s)
    with (write_burst val s).
  change (irq_storm_write now IRQ_STORM_REG_PERIOD_US val s)
    with (write_period_us now val s).
  destruct (write_ctrl_counters now val s) as (W1 & T1 & _).
  destruct (write_ctrl_counters now' val (write_ctrl now val s))
    as (W2 & _).
  cbv zeta in W1, T1, W2.
  rewrite write_ctrl_control, Z.eqb_refl in W2.
  rewrite ctrl_mask_enable in T1.
  repeat split; auto using u64_succ_neq.
  - apply write_burst_counters.
  - apply write_period_us_counters.
Qed.

(** C6.  On a running device, a non-zero write to ACK while the line is
    held lowers the line and clears [irq_asserted], touching nothing
    else; a write of zero changes nothing; an ACK write while the line is
    not held changes nothing; and in edge mode an ACK write changes
    nothing. *)
Theorem C6_ack t now val s :
  reachable t s ->
  (val <> 0 -> irq_asserted s = true ->
   irq_storm_write now IRQ_STORM_REG_ACK val s =
     set_irq_asserted false (qemu_irq_lower s) /\
   irq_asserted (irq_storm_write now IRQ_STORM_REG_ACK val s) = false /\
   line_high (irq_trace (irq_storm_write now IRQ_STORM_REG_ACK val s))
     = false) /\
  irq_storm_write now IRQ_STORM_REG_ACK 0 s = s /\
  (irq_asserted s = false ->
   irq_storm_write now IRQ_STORM_REG_ACK val s = s) /\
  (ctrl_level (control s) = false ->
   irq_storm_write now IRQ_STORM_REG_ACK val s = s).
Proof.
  intros R.
  change (irq_storm_write now IRQ_STORM_REG_ACK val s)
    with (write_ack val s).
  change (irq_storm_write now IRQ_STORM_REG_ACK 0 s) with s.
  assert (Idle : irq_asserted s = false -> write_ack val s = s).
  { intros A. unfold write_ack, irq_storm_irq_deassert. rewrite A.
    now destruct (negb _). }
  split; [| split; [reflexivity | split; [exact Idle |]]].
  - intros V A. apply Z.eqb_neq in V.
    unfold write_ack, irq_storm_irq_deassert. rewrite V, A. simpl. auto.
  - intros L. apply Idle. exact (inv_edge s (reachable_Inv t s R) L).
Qed.

(** C9.  At an offset outside the defined register set a read returns 0
    and a write leaves the whole device state as it was. *)
Theorem C9_unknown_offsets now addr val s :
  ~ In addr defined_offsets ->
  irq_storm_read addr s = 0 /\ irq_storm_write now addr val s = s.
Proof.
  intros N. unfold defined_offsets in N. simpl in N.
  assert (K : forall k, (k = addr -> False) -> (addr =? k) = false)
    by (intros k Hk; apply Z.eqb_neq; congruence).
  unfold irq_storm_read, irq_storm_write.
  rewrite !K by tauto. auto.
Qed.

(** ** Construction *)

(** C8.  Realizing a fresh instance fails exactly when the line number
    is above 15 or the window is smaller than 0x20 bytes (highest offset
    0x1C plus 4); a failed realize leaves the instance as it was, with no
    line bound, no timer and no window mapped; a successful one binds the
    line, creates the timer, maps the window and applies the initial
    level-triggered and enabled flags, arming the timer when enabled. *)
Theorem C8_realize now base size line nburst period enabled level :
  let s0 := instance_init base size line nburst period enabled level in
  let r := irq_storm_realize now s0 in
  IRQ_STORM_REG_ACK + 4 = 0x20 /\
  (snd r <> None <-> 15 < line \/ size < 0x20) /\
  (snd r <> None ->
   fst r = s0 /\ irq (fst r) = None /\ timer (fst r) = false /\
   io (fst r) = None /\ expire_time (fst r) = None) /\
  (snd r = None ->
   irq (fst r) = Some line /\ timer (fst r) = true /\
   io (fst r) = Some (base, size) /\
   ctrl_level (control (fst r)) = level /\
   ctrl_enable (control (fst r)) = enabled /\
   expire_time (fst r) =
     (if enabled then Some (s64 (u64 now + irq_storm_period_ns s0))
      else None)).
Proof.
  cbv zeta. split; [reflexivity |].
  unfold irq_storm_realize. cbn [isairq iosize instance_init].
  destruct (15 <? line) eqn:E1;
    [apply Z.ltb_lt in E1 | apply Z.ltb_ge in E1].
  - cbn [fst snd]. repeat split; auto; try discriminate; try congruence.
  - destruct (size <? 32) eqn:E2;
      [apply Z.ltb_lt in E2 | apply Z.ltb_ge in E2].
    + cbn [fst snd]. repeat split; auto; try discriminate; try congruence.
    + cbn [fst snd]. split; [| split].
      * split; [congruence | lia].
      * congruence.
      * intros _. destruct level, enabled; cbn; auto 10.
Qed.

(** ** A disabled device never holds the line *)

Lemma write_quiet now addr val s :
  quiet_when_disabled s ->
  quiet_when_disabled (irq_storm_write now addr val s).
Proof.
  unfold quiet_when_disabled, irq_storm_write. intros Q.
  destruct (addr =? IRQ_STORM_REG_CTRL).
  { ctrl_cases s c; auto; try congruence. }
  destruct (addr =? IRQ_STORM_REG_BURST).
  { unfold write_burst. destruct (negb _); simpl; auto. }
  destruct (addr =? IRQ_STORM_REG_PERIOD_US).
  { unfold write_period_us, irq_storm_schedule_from_now.
    destruct (negb _); simpl; auto.
    destruct (ctrl_enable (control s)) eqn:E; simpl; rewrite ?E; simpl;
      auto; congruence. }
  destruct (addr =? IRQ_STORM_REG_ACK); [| exact Q].
  unfold write_ack, irq_storm_irq_deassert.
  destruct (negb _); [| exact Q].
  destruct (irq_asserted s) eqn:A; simpl; auto.
Qed.

Lemma write_ctrl_disable now val s :
  Z.testbit val 0 = false ->
  ctrl_enable (control (write_ctrl now val s)) = false /\
  irq_asserted (write_ctrl now val s) = false /\
  expire_time (write_ctrl now val s) = None.
Proof.
  intros B. rewrite <- ctrl_mask_enable in B. revert B.
  ctrl_cases s c; intros; auto; try congruence.
Qed.

(** C10.  Whenever ENABLE is clear the line is not held.  This holds of
    a freshly realized device, every register write preserves it (a CTRL
    write that clears ENABLE lowers the line and cancels the timer in the
    same operation), and so does every timer callback, which on a
    disabled device returns at once and changes nothing. *)
Theorem C10_disabled_not_asserted now addr val s :
  quiet_when_disabled s ->
  quiet_when_disabled (irq_storm_write now addr val s) /\
  (Z.testbit val 0 = false ->
   let s' := irq_storm_write now IRQ_STORM_REG_CTRL val s in
   ctrl_enable (control s') = false /\ irq_asserted s' = false /\
   expire_time s' = None) /\
  (forall s', irq_storm_timer_cb now s = Some s' ->
              quiet_when_disabled s') /\
  (ctrl_enable (control s) = false -> irq_storm_timer_cb now s = Some s) /\
  (forall base size line nburst period enabled level s0,
     irq_storm_realize now
       (instance_init base size line nburst period enabled level)
       = (s0, None) ->
     quiet_when_disabled s0 /\ irq_asserted s0 = false) /\
  (forall t, reachable t s -> ctrl_enable (control s) = false ->
             irq_asserted s = false /\ line_high (irq_trace s) = false).
Proof.
  intros Q.
  split; [now apply write_quiet |].
  split; [intros B; now apply write_ctrl_disable |].
  split.
  { intros s' F. unfold quiet_when_disabled in *.
    destruct (ctrl_enable (control s)) eqn:E.
    - destruct (timer_cb_config now s s' F) as (C & _).
      rewrite C, E. discriminate.
    - rewrite timer_cb_disabled in F by assumption.
      injection F as <-. intros _. now apply Q. }
  split; [now apply timer_cb_disabled |].
  split.
  { intros base size line nburst period enabled level s0.
    unfold irq_storm_realize, quiet_when_disabled.
    cbn [isairq iosize instance_init].
    destruct (15 <? line); [discriminate |].
    destruct (size <? 32); [discriminate |].
    destruct level, enabled; cbn; intros [= <-]; auto. }
  intros t R E. assert (I := reachable_Inv t s R).
  assert (A := inv_disabled s I E).
  split; [exact A |]. now rewrite (inv_line s I).
Qed.

(** ** Monotonic counters *)

Ltac fields :=
  cbv beta iota zeta delta
    [iobase iosize isairq burst period_us start_enabled level_triggered
     control irq_asserted next_deadline_ns pulses_emitted timer_cb_count
     config_writes enable_toggle_count io timer expire_time irq irq_trace
     set_burst set_period_us set_control set_irq_asserted
     set_next_deadline_ns set_pulses_emitted set_timer_cb_count
     set_config_writes set_enable_toggle_count set_expire_time
     set_irq_trace set_host timer_mod timer_del qemu_irq_raise
     qemu_irq_lower qemu_irq_pulse].

Lemma storm_fire n :
  0 <= n < storm_fires ->
  irq_storm_timer_cb (1000 * (n + 1)) (timer_del (storm_state n)) =
  Some (storm_state (n + 1)).
Proof.
  intros B. unfold storm_fires in B.
  rewrite timer_cb_edge by reflexivity.
  unfold irq_storm_schedule_next.
  replace (burst_pulses (timer_del (storm_state n))) with 100000
    by reflexivity.
  unfold storm_state. fields.
  change (ctrl_enable 1) with true. cbv beta iota zeta delta [negb].
  match goal with
  | |- context [irq_storm_period_ns ?x] =>
      change (irq_storm_period_ns x) with 1000
  end.
  rewrite (u64_small (1000 * (n + 1))) by lia.
  rewrite (s64_small (1000 * (n + 1) + 1000)) by lia.
  replace (1000 * (n + 1) + 1000 <=? 1000 * (n + 1)) with false
    by (symmetry; apply Z.leb_gt; lia).
  rewrite (u64_small (n + 1)) by lia.
  rewrite (u64_small (100000 * n + 100000)) by lia.
  rewrite <- repeat_app, <- Z2Nat.inj_add by lia.
  do 2 f_equal; try (f_equal; lia); try lia.
Qed.

Lemma storm_reachable (k : nat) :
  Z.of_nat k <= storm_fires ->
  reachable (1000 * Z.of_nat k) (storm_state (Z.of_nat k)).
Proof.
  induction k as [| k IH]; intros B.
  - apply (reach_realize 0 0x560 0x20 5 100000 1 true false);
      solve [reflexivity | vm_compute; split; congruence].
  - rewrite Nat2Z.inj_succ, <- Z.add_1_r in *.
    apply (reach_fire (1000 * Z.of_nat k) _ (1000 * (Z.of_nat k + 1))
             (storm_state (Z.of_nat k))).
    + apply IH. lia.
    + unfold storm_fires in B. lia.
    + reflexivity.
    + lia.
    + apply storm_fire. lia.
Qed.


(** How one operation changes the four counters: each is left alone or
    increased modulo [2 ^ 64], by one, or by the burst for
    [pulses_emitted]. *)
Lemma write_counters now addr val s :
  let s' := irq_storm_write now addr val s in
  pulses_emitted s' = pulses_emitted s /\
  timer_cb_count s' = timer_cb_count s /\
  (config_writes s' = config_writes s \/
   config_writes s' = u64 (config_writes s + 1)) /\
  (enable_toggle_count s' = enable_toggle_count s \/
   enable_toggle_count s' = u64 (enable_toggle_count s + 1)).
Proof.
  cbv zeta. unfold irq_storm_write.
  destruct (addr =? IRQ_STORM_REG_CTRL).
  { destruct (write_ctrl_counters now val s) as (W & T & Q & N).
    cbv zeta in W, T. rewrite W, T, Q, N.
    destruct (_ =? _), (Bool.eqb _ _); auto. }
  destruct (addr =? IRQ_STORM_REG_BURST).
  { destruct (write_burst_counters val s) as (W & T & Q & N).
    rewrite W, T, Q, N. destruct (_ =? _); auto. }
  destruct (addr =? IRQ_STORM_REG_PERIOD_US).
  { destruct (write_period_us_counters now val s) as (W & T & Q & N).
    rewrite W, T, Q, N. destruct (_ =? _); auto. }
  destruct (addr =? IRQ_STORM_REG_ACK); [| auto].
  destruct (write_ack_counters val s) as (W & T & Q & N).
  rewrite W, T, Q, N. auto.
Qed.

Lemma timer_cb_counters now s s' :
  irq_storm_timer_cb now s = Some s' ->
  (pulses_emitted s' = pulses_emitted s \/
   exists k, 1 <= k <= IRQ_STORM_MAX_BURST /\
             pulses_emitted s' = u64 (pulses_emitted s + k)) /\
  (timer_cb_count s' = timer_cb_count s \/
   timer_cb_count s' = u64 (timer_cb_count s + 1)) /\
  config_writes s' = config_writes s /\
  enable_toggle_count s' = enable_toggle_count s.
Proof.
  intros F. destruct (timer_cb_config now s s' F) as (_ & _ & _ & W & T).
  destruct (ctrl_enable (control s)) eqn:E.
  - destruct (ctrl_level (control s)) eqn:L.
    + destruct (irq_asserted s) eqn:A.
      * rewrite timer_cb_level_held in F by assumption.
        apply schedule_next_shape in F; [| exact E].
        rewrite F. simpl. auto.
      * rewrite timer_cb_level_idle in F by assumption.
        apply schedule_next_shape in F; [| exact E].
        rewrite F. simpl. repeat split; auto.
        right. exists 1. unfold IRQ_STORM_MAX_BURST. split; [lia | auto].
    + rewrite timer_cb_edge in F by assumption.
      apply schedule_next_shape in F; [| exact E].
      rewrite F. simpl. repeat split; auto.
      right. exists (burst_pulses s). split; [| reflexivity].
      apply burst_pulses_range.
  - rewrite timer_cb_disabled in F by assumption. injection F as <-. auto.
Qed.

(** C1, as the code has it.  The counters are 64-bit and are only ever
    changed by adding to them modulo [2 ^ 64]: in a state where no
    counter is within one increment of [2 ^ 64] (the largest burst for
    [pulses_emitted], one for the others), no register read, register
    write or timer callback decreases or resets any of [pulses_emitted],
    [timer_cb_count], [config_writes] and [enable_toggle_count]. *)
Theorem C1_counters_monotone_until_wrap o s s' :
  0 <= pulses_emitted s ->
  pulses_emitted s + IRQ_STORM_MAX_BURST < 2 ^ 64 ->
  0 <= timer_cb_count s -> timer_cb_count s + 1 < 2 ^ 64 ->
  0 <= config_writes s -> config_writes s + 1 < 2 ^ 64 ->
  0 <= enable_toggle_count s -> enable_toggle_count s + 1 < 2 ^ 64 ->
  step o s = Some s' ->
  pulses_emitted s <= pulses_emitted s' /\
  timer_cb_count s <= timer_cb_count s' /\
  config_writes s <= config_writes s' /\
  enable_toggle_count s <= enable_toggle_count s'.
Proof.
  intros P0 P1 N0 N1 W0 W1 T0 T1 St.
  destruct o as [addr | now addr val | now]; simpl in St.
  - injection St as <-. lia.
  - injection St as <-.
    destruct (write_counters now addr val s) as (Q & N & W & T).
    cbv zeta in Q, N, W, T. rewrite Q, N.
    destruct W as [-> | ->], T as [-> | ->];
      rewrite ?u64_small by lia; lia.
  - destruct (timer_cb_counters now s s' St) as (Q & N & W & T).
    rewrite W, T.
    destruct Q as [-> | (k & K & ->)], N as [-> | ->];
      rewrite ?u64_small by lia; lia.
Qed.

(** C1, counterexample.  The storm above reaches, after
    184467440737095 callbacks, a state whose [pulses_emitted] is
    18446744073709500000; the next callback adds 100000 and the 64-bit
    counter wraps to 48384: it has decreased. *)
Lemma C1_counter_wraps :
  reachable (1000 * storm_fires) wrap_state /\
  pulses_emitted wrap_state = 18446744073709500000 /\
  exists s',
    step (Fire (1000 * (storm_fires + 1))) wrap_state = Some s' /\
    pulses_emitted s' = 48384 /\
    pulses_emitted s' < pulses_emitted wrap_state.
Proof.
  split.
  { unfold wrap_state.
    rewrite <- (Z2Nat.id storm_fires) by (unfold storm_fires; lia).
    apply storm_reachable. rewrite Z2Nat.id; unfold storm_fires; lia. }
  split; [reflexivity |].
  assert (P : irq_storm_period_ns wrap_state <> 0)
    by (change (irq_storm_period_ns wrap_state) with 1000; lia).
  destruct (timer_cb_total (1000 * (storm_fires + 1)) _ P) as [s' F].
  exists s'. split; [exact F |].
  rewrite timer_cb_edge in F by reflexivity.
  apply schedule_next_shape in F; [| reflexivity].
  assert (Q : pulses_emitted s' = 48384) by (rewrite F; reflexivity).
  rewrite Q. split; [reflexivity |].
  unfold wrap_state, storm_state, storm_fires. fields. lia.
Qed.

(** ** The stable read of the pulse counter *)

Lemma evolves_mono s s' :
  evolves s s' -> pulses_emitted s <= pulses_emitted s'.
Proof. induction 1; lia. Qed.

Lemma evolves_trans s1 s2 s3 :
  evolves s1 s2 -> evolves s2 s3 -> evolves s1 s3.
Proof. induction 1; eauto using evolves. Qed.

Lemma lor_disjoint h l :
  0 <= l < 2 ^ 32 -> Z.lor (h * 2 ^ 32) l = h * 2 ^ 32 + l.
Proof.
  intros L.
  assert (D : Z.land (h * 2 ^ 32) l = 0).
  { apply Z.bits_inj'. intros i I. rewrite Z.land_spec, Z.bits_0.
    destruct (Z.lt_ge_cases i 32) as [Lo | Hi].
    - rewrite Z.mul_pow2_bits_low by lia. reflexivity.
    - rewrite <- (Z.mod_small l (2 ^ 32)) by lia.
      rewrite Z.mod_pow2_bits_high by lia. apply andb_false_r. }
  rewrite <- Z.lxor_lor by exact D.
  symmetry. now apply Z.add_nocarry_lxor.
Qed.

(** Two equal high words around a low word pin the whole value. *)
Lemma stable_value p1 p2 p3 :
  0 <= p1 -> p1 <= p2 -> p2 <= p3 -> p3 < 2 ^ 64 ->
  u32 (Z.shiftr p1 32) = u32 (Z.shiftr p3 32) ->
  Z.lor (u64 (Z.shiftl (u32 (Z.shiftr p3 32)) 32)) (u32 p2) = p2.
Proof.
  intros P0 P12 P23 P3. rewrite !Z.shiftr_div_pow2 by lia.
  assert (B : forall p, 0 <= p < 2 ^ 64 -> 0 <= p / 2 ^ 32 < 2 ^ 32).
  { intros p Hp. split; [apply Z.div_pos; lia |].
    apply Z.div_lt_upper_bound; lia. }
  rewrite !u32_small by (apply B; lia). intros H.
  assert (H2 : p2 / 2 ^ 32 = p3 / 2 ^ 32).
  { assert (p1 / 2 ^ 32 <= p2 / 2 ^ 32) by (apply Z.div_le_mono; lia).
    assert (p2 / 2 ^ 32 <= p3 / 2 ^ 32) by (apply Z.div_le_mono; lia).
    lia. }
  rewrite Z.shiftl_mul_pow2 by lia.
  assert (B3 := B p3 ltac:(lia)).
  rewrite u64_small by lia.
  unfold u32. rewrite lor_disjoint by (apply Z.mod_pos_bound; lia).
  rewrite <- H2. assert (Dv := Z.div_mod p2 (2 ^ 32)). lia.
Qed.

Section StableRead.

Variable b : bus.
Hypothesis window : forall i, iobase (b i) = STORM_IOBASE.
Hypothesis range : forall i, 0 <= pulses_emitted (b i) < 2 ^ 64.
Hypothesis runs : forall i, evolves (b i) (b (S i)).

(** What the two ports show: the halves of [pulses_emitted]. *)
Lemma in32_hi i :
  io_in32 (b i) REG_PULSES_HI = u32 (Z.shiftr (pulses_emitted (b i)) 32).
Proof.
  unfold io_in32. rewrite window.
  change (irq_storm_read (REG_PULSES_HI - STORM_IOBASE) (b i))
    with (u32 (Z.shiftr (pulses_emitted (b i)) 32)).
  apply u32_small, u32_range.
Qed.

Lemma in32_lo i :
  io_in32 (b i) REG_PULSES_LO = u32 (pulses_emitted (b i)).
Proof.
  unfold io_in32. rewrite window.
  change (irq_storm_read (REG_PULSES_LO - STORM_IOBASE) (b i))
    with (u32 (pulses_emitted (b i))).
  apply u32_small, u32_range.
Qed.

Lemma bus_mono i j :
  (i <= j)%nat -> pulses_emitted (b i) <= pulses_emitted (b j).
Proof.
  induction 1 as [| j _ IH]; [lia |].
  assert (M := evolves_mono _ _ (runs j)). lia.
Qed.

(** A returned value comes from the first round whose two HI samples
    agree, and is the counter as it stood at that round's LO read. *)
Lemma stable_read_accepts fuel : forall n v n',
  read_u64_lohi_stable b fuel n REG_PULSES_LO REG_PULSES_HI
  = Some (v, n') ->
  exists k,
    (k < fuel)%nat /\ n' = (n + 3 * k + 3)%nat /\
    (forall j, (j < k)%nat ->
       io_in32 (b (n + 3 * j)%nat) REG_PULSES_HI <>
       io_in32 (b (n + 3 * j + 2)%nat) REG_PULSES_HI) /\
    io_in32 (b (n + 3 * k)%nat) REG_PULSES_HI =
    io_in32 (b (n + 3 * k + 2)%nat) REG_PULSES_HI /\
    v = Z.lor
          (u64 (Z.shiftl (io_in32 (b (n + 3 * k + 2)%nat) REG_PULSES_HI) 32))
          (io_in32 (b (n + 3 * k + 1)%nat) REG_PULSES_LO) /\
    v = pulses_emitted (b (n + 3 * k + 1)%nat).
Proof.
  induction fuel as [| fuel IH]; intros n v n';
    cbn [read_u64_lohi_stable]; [discriminate |].
  destruct (io_in32 (b n) REG_PULSES_HI =?
            io_in32 (b (n + 2)%nat) REG_PULSES_HI) eqn:Q; cbn [negb].
  - apply Z.eqb_eq in Q.
    match goal with
    | |- Some (?x, _) = _ -> _ => remember x as w eqn:W
    end.
    intros [= <- <-]. exists 0%nat.
    replace (n + 3 * 0)%nat with n by lia.
    repeat split; try lia; auto.
    rewrite W, !in32_hi, in32_lo. rewrite !in32_hi in Q.
    apply (stable_value (pulses_emitted (b n))).
    + apply range.
    + apply bus_mono; lia.
    + apply bus_mono; lia.
    + apply range.
    + exact Q.
  - apply Z.eqb_neq in Q. intros R.
    destruct (IH _ _ _ R) as (k & K & N & Rej & Acc & V1 & V2).
    exists (S k).
    replace (n + 3 * S k)%nat with (n + 3 + 3 * k)%nat by lia.
    repeat split; try lia; auto.
    intros j J. destruct j as [| j].
    + now replace (n + 3 * 0)%nat with n by lia.
    + replace (n + 3 * S j)%nat with (n + 3 + 3 * j)%nat by lia.
      apply Rej. lia.
Qed.

(** The loop returns as soon as some round sees equal HI samples. *)
Lemma stable_read_returns fuel : forall n k,
  (k < fuel)%nat ->
  io_in32 (b (n + 3 * k)%nat) REG_PULSES_HI =
  io_in32 (b (n + 3 * k + 2)%nat) REG_PULSES_HI ->
  exists v n',
    read_u64_lohi_stable b fuel n REG_PULSES_LO REG_PULSES_HI
    = Some (v, n').
Proof.
  induction fuel as [| fuel IH]; intros n k K Acc; [lia |].
  cbn [read_u64_lohi_stable].
  destruct (io_in32 (b n) REG_PULSES_HI =?
            io_in32 (b (n + 2)%nat) REG_PULSES_HI) eqn:Q;
    cbn [negb]; [eauto |].
  destruct k as [| k].
  - replace (n + 3 * 0)%nat with n in Acc by lia.
    apply Z.eqb_neq in Q. contradiction.
  - apply (IH (n + 3)%nat k); [lia |].
    now replace (n + 3 + 3 * k)%nat with (n + 3 * S k)%nat by lia.
Qed.

End StableRead.

(** C7.  The stable read samples HI, LO, HI and retries while the two HI
    samples differ.  With the device at the consumer's window, running
    by its own operations between the port reads and its counter not
    wrapping meanwhile, a returned value is built from the HI sample and
    the LO sample of the first round whose two HI samples agree, and it
    equals [pulses_emitted] as it stood at that round's LO read, a state
    the device passed through between the two HI reads: never a torn
    value.  The read returns as soon as such a round occurs. *)
Theorem C7_stable_read (b : bus) (fuel n : nat) :
  (forall i, iobase (b i) = STORM_IOBASE) ->
  (forall i, 0 <= pulses_emitted (b i) < 2 ^ 64) ->
  (forall i, evolves (b i) (b (S i))) ->
  (forall v n',
     read_u64_lohi_stable b fuel n REG_PULSES_LO REG_PULSES_HI
     = Some (v, n') ->
     exists k,
       (k < fuel)%nat /\ n' = (n + 3 * k + 3)%nat /\
       (forall j, (j < k)%nat ->
          io_in32 (b (n + 3 * j)%nat) REG_PULSES_HI <>
          io_in32 (b (n + 3 * j + 2)%nat) REG_PULSES_HI) /\
       io_in32 (b (n + 3 * k)%nat) REG_PULSES_HI =
       io_in32 (b (n + 3 * k + 2)%nat) REG_PULSES_HI /\
       v = Z.lor
             (u64 (Z.shiftl
                     (io_in32 (b (n + 3 * k + 2)%nat) REG_PULSES_HI) 32))
             (io_in32 (b (n + 3 * k + 1)%nat) REG_PULSES_LO) /\
       v = pulses_emitted (b (n + 3 * k + 1)%nat) /\
       evolves (b (n + 3 * k)%nat) (b (n + 3 * k + 1)%nat) /\
       evolves (b (n + 3 * k + 1)%nat) (b (n + 3 * k + 2)%nat)) /\
  (forall k,
     (k < fuel)%nat ->
     io_in32 (b (n + 3 * k)%nat) REG_PULSES_HI =
     io_in32 (b (n + 3 * k + 2)%nat) REG_PULSES_HI ->
     exists v n',
       read_u64_lohi_stable b fuel n REG_PULSES_LO REG_PULSES_HI
       = Some (v, n')).
Proof.
  intros W R E. split.
  - intros v n' H.
    destruct (stable_read_accepts b W R E fuel n v n' H)
      as (k & K & N & Rej & Acc & V1 & V2).
    exists k. repeat split; auto.
    + replace (n + 3 * k + 1)%nat with (S (n + 3 * k)) by lia. apply E.
    + replace (n + 3 * k + 2)%nat with (S (n + 3 * k + 1)) by lia. apply E.
  - intros k K Acc. exact (stable_read_returns b fuel n k K Acc).
Qed.

(** ** The theorems at work on the sample devices *)

Ltac closed_goal :=
  vm_compute;
  first [ reflexivity
        | discriminate
        | split; [discriminate | reflexivity] ].

Lemma edge_device_reachable : reachable 0 edge_device.
Proof.
  apply (reach_realize 0 0x560 0x20 5 5 100 true false); closed_goal.
Defined.

Lemma level_device_reachable : reachable 0 level_device.
Proof.
  apply (reach_realize 0 0x560 0x20 5 128 100 true true); closed_goal.
Defined.

Lemma C1_counters_monotone_until_wrap_witness :
  step (Fire 100000) edge_device = Some (fired 100000 edge_device) /\
  pulses_emitted edge_device <= pulses_emitted (fired 100000 edge_device) /\
  timer_cb_count edge_device <= timer_cb_count (fired 100000 edge_device) /\
  config_writes edge_device <= config_writes (fired 100000 edge_device) /\
  enable_toggle_count edge_device
  <= enable_toggle_count (fired 100000 edge_device).
Proof.
  split; [closed_goal |].
  apply (C1_counters_monotone_until_wrap (Fire 100000) edge_device);
    closed_goal.
Defined.

Lemma C2_level_single_assert_witness :
  ctrl_enable (control level_device) = true /\
  ctrl_level (control level_device) = true /\
  irq_storm_period_ns level_device <> 0 /\
  exists s' k,
    fires [100000; 200000; 300000] level_device = Some s' /\
    (k <= 1)%nat /\
    irq_trace s' = repeat Raise k ++ irq_trace level_device /\
    u64 (pulses_emitted s') =
    u64 (pulses_emitted level_device + Z.of_nat k) /\
    u64 (timer_cb_count s') =
    u64 (timer_cb_count level_device +
         Z.of_nat (length [100000; 200000; 300000])).
Proof.
  split; [closed_goal |]. split; [closed_goal |].
  split; [closed_goal |].
  apply (C2_level_single_assert 100000 [100000; 200000; 300000]
           level_device); closed_goal.
Defined.

Lemma drift_correction_nonzero_period_witness :
  next_deadline_ns edge_device = 100000 /\
  irq_storm_period_ns edge_device = 100000 /\
  exists s',
    irq_storm_timer_cb 470000 edge_device = Some s' /\
    timer_cb_count s' = u64 (timer_cb_count edge_device + 1) /\
    next_deadline_ns s' = 100000 + 4 * 100000.
Proof.
  split; [closed_goal |]. split; [closed_goal |].
  destruct (drift_correction_nonzero_period 470000 edge_device)
    as (s' & F & N & _ & _ & _ & _ & _ & T); try closed_goal.
  exists s'. split; [exact F |]. split; [exact N |].
  apply T. closed_goal.
Defined.

Lemma C4_edge_burst_witness :
  burst edge_device = 5 /\
  exists s',
    irq_storm_timer_cb 100000 edge_device = Some s' /\
    irq_trace s' =
      [Pulse; Pulse; Pulse; Pulse; Pulse] ++ irq_trace edge_device /\
    pulses_emitted s' = u64 (pulses_emitted edge_device + 5) /\
    line_high (irq_trace s') = false.
Proof.
  split; [closed_goal |].
  destruct (C4_edge_burst 0 100000 edge_device)
    as (s' & F & _ & _ & _ & _ & Low & _ & B5); try closed_goal.
  - exact edge_device_reachable.
  - exists s'. destruct (B5 eq_refl) as (T & Q). auto.
Defined.

Lemma C5_debounced_accounting_witness :
  config_writes (irq_storm_write 7 IRQ_STORM_REG_CTRL 3 edge_device) = 1 /\
  config_writes
    (irq_storm_write 8 IRQ_STORM_REG_CTRL 3
       (irq_storm_write 7 IRQ_STORM_REG_CTRL 3 edge_device)) = 1 /\
  config_writes (irq_storm_write 7 IRQ_STORM_REG_BURST 5 edge_device) = 0.
Proof.
  destruct (C5_debounced_accounting 7 8 3 edge_device) as (A & B & _).
  destruct (C5_debounced_accounting 7 8 5 edge_device) as (_ & _ & C & _).
  cbv zeta in A. rewrite B, A, C. repeat split; closed_goal.
Defined.

Lemma level_fired_reachable :
  reachable 100000 (fired 100000 (timer_del level_device)).
Proof.
  apply (reach_fire 0 100000 100000 level_device).
  - exact level_device_reachable.
  - closed_goal.
  - closed_goal.
  - closed_goal.
  - closed_goal.
Defined.

Lemma C6_ack_witness :
  irq_asserted (fired 100000 (timer_del level_device)) = true /\
  irq_asserted
    (irq_storm_write 150000 IRQ_STORM_REG_ACK 1
       (fired 100000 (timer_del level_device))) = false /\
  irq_storm_write 150000 IRQ_STORM_REG_ACK 0
    (fired 100000 (timer_del level_device))
  = fired 100000 (timer_del level_device).
Proof.
  split; [closed_goal |].
  destruct (C6_ack 100000 150000 1 (fired 100000 (timer_del level_device))
              level_fired_reachable) as (A & Z0 & _).
  split; [| exact Z0].
  apply A; [discriminate | closed_goal].
Defined.

Lemma racing_bus_window i : iobase (racing_bus i) = STORM_IOBASE.
Proof. destruct i; closed_goal. Defined.

Lemma racing_bus_range i : 0 <= pulses_emitted (racing_bus i) < 2 ^ 64.
Proof. destruct i; closed_goal. Defined.

Lemma racing_bus_runs i : evolves (racing_bus i) (racing_bus (S i)).
Proof.
  destruct i as [| i]; cbn [racing_bus].
  - apply (evolves_step (Fire 100000) carry_before carry_after).
    + closed_goal.
    + closed_goal.
    + apply evolves_refl.
  - apply evolves_refl.
Defined.

(** The first round sees HI samples 0 and 1 and is retried; the second
    returns [2 ^ 32 + 2], not the torn [2]. *)
Lemma C7_stable_read_witness :
  read_u64_lohi_stable racing_bus 2 0 REG_PULSES_LO REG_PULSES_HI
  = Some (2 ^ 32 + 2, 6%nat) /\
  exists k,
    (k < 2)%nat /\
    2 ^ 32 + 2 = pulses_emitted (racing_bus (0 + 3 * k + 1)%nat).
Proof.
  split; [closed_goal |].
  destruct (proj1 (C7_stable_read racing_bus 2 0 racing_bus_window
                     racing_bus_range racing_bus_runs)
              (2 ^ 32 + 2) 6%nat)
    as (k & K & _ & _ & _ & _ & V & _); [closed_goal |].
  exists k. auto.
Defined.

Lemma C8_realize_witness :
  snd (irq_storm_realize 0 (instance_init 0x560 0x20 16 128 100 true false))
  <> None /\
  fst (irq_storm_realize 0 (instance_init 0x560 0x20 16 128 100 true false))
  = instance_init 0x560 0x20 16 128 100 true false /\
  snd (irq_storm_realize 0 (instance_init 0x560 0x1f 5 128 100 true false))
  <> None /\
  snd (irq_storm_realize 0 default_instance) = None.
Proof.
  destruct (C8_realize 0 0x560 0x20 16 128 100 true false)
    as (_ & E1 & F1 & _).
  destruct (C8_realize 0 0x560 0x1f 5 128 100 true false)
    as (_ & E2 & _).
  cbv zeta in E1, F1, E2.
  assert (B1 : 15 < 16 \/ 32 < 32) by (left; closed_goal).
  assert (B2 : 15 < 5 \/ 31 < 32) by (right; closed_goal).
  split; [exact (proj2 E1 B1) |].
  split; [exact (proj1 (F1 (proj2 E1 B1))) |].
  split; [exact (proj2 E2 B2) | closed_goal].
Defined.

Lemma C9_unknown_offsets_witness :
  ~ In 5 defined_offsets /\
  irq_storm_read 5 edge_device = 0 /\
  irq_storm_write 9 5 77 edge_device = edge_device.
Proof.
  assert (N : ~ In 5 defined_offsets).
  { intros H. repeat (destruct H as [H | H]; [discriminate H |]). exact H. }
  split; [exact N |].
  exact (C9_unknown_offsets 9 5 77 edge_device N).
Defined.

Lemma C10_disabled_not_asserted_witness :
  quiet_when_disabled idle_device /\
  quiet_when_disabled (irq_storm_write 9 IRQ_STORM_REG_CTRL 3 idle_device) /\
  irq_storm_timer_cb 9 idle_device = Some idle_device.
Proof.
  assert (Q : quiet_when_disabled idle_device) by (intros _; closed_goal).
  destruct (C10_disabled_not_asserted 9 IRQ_STORM_REG_CTRL 3 idle_device Q)
    as (W & _ & _ & D & _).
  split; [exact Q |]. split; [exact W |].
  apply D. closed_goal.
Defined.

(** ** Registers read back what was written *)


Lemma schedule_from_now_regs now s :
  control (irq_storm_schedule_from_now now s) = control s /\
  burst (irq_storm_schedule_from_now now s) = burst s /\
  period_us (irq_storm_schedule_from_now now s) = period_us s.
Proof.
  unfold irq_storm_schedule_from_now.
  destruct (negb _); simpl; auto.
Qed.

(** A value written to CTRL, BURST or PERIOD_US is what the register
    reads afterwards, masked to the two control bits or truncated to 32
    bits. *)
Theorem register_read_back now val s :
  irq_storm_read IRQ_STORM_REG_CTRL
    (irq_storm_write now IRQ_STORM_REG_CTRL val s) = Z.land val 3 /\
  irq_storm_read IRQ_STORM_REG_BURST
    (irq_storm_write now IRQ_STORM_REG_BURST val s) = u32 val /\
  irq_storm_read IRQ_STORM_REG_PERIOD_US
    (irq_storm_write now IRQ_STORM_REG_PERIOD_US val s) = u32 val.
Proof.
  change (irq_storm_write now IRQ_STORM_REG_CTRL val s)
    with (write_ctrl now val s).
  change (irq_storm_write now IRQ_STORM_REG_BURST val s)
    with (write_burst val s).
  change (irq_storm_write now IRQ_STORM_REG_PERIOD_US val s)
    with (write_period_us now val s).
  change (irq_storm_read IRQ_STORM_REG_CTRL (write_ctrl now val s))
    with (control (write_ctrl now val s)).
  change (irq_storm_read IRQ_STORM_REG_BURST (write_burst val s))
    with (burst (write_burst val s)).
  change (irq_storm_read IRQ_STORM_REG_PERIOD_US (write_period_us now val s))
    with (period_us (write_period_us now val s)).
  split; [| split].
  - rewrite write_ctrl_control.
    assert (C := ctrl_mask_cases val). cbv zeta in C.
    change (Z.lor IRQ_STORM_CTRL_ENABLE IRQ_STORM_CTRL_LEVEL) with 3 in *.
    assert (R := u8_range (Z.land val 3)).
    assert (L : 0 <= Z.land val 3 < 4).
    { change 3 with (Z.ones 2). rewrite Z.land_ones by lia.
      apply Z.mod_pos_bound. lia. }
    apply u8_small. lia.
  - unfold write_burst. destruct (u32 val =? burst s) eqn:Q; simpl.
    + apply Z.eqb_eq in Q. congruence.
    + reflexivity.
  - unfold write_period_us. destruct (u32 val =? period_us s) eqn:Q; simpl.
    + apply Z.eqb_eq in Q. congruence.
    + destruct (ctrl_enable (control s)); [| reflexivity].
      apply schedule_from_now_regs.
Qed.

(** The two halves of the pulse counter, read from one state, put
    together give the counter back. *)
Theorem pulses_halves_recombine s :
  0 <= pulses_emitted s < 2 ^ 64 ->
  Z.lor (Z.shiftl (irq_storm_read IRQ_STORM_REG_PULSES_HI s) 32)
        (irq_storm_read IRQ_STORM_REG_PULSES_LO s)
  = pulses_emitted s /\
  0 <= irq_storm_read IRQ_STORM_REG_PULSES_LO s < 2 ^ 32 /\
  0 <= irq_storm_read IRQ_STORM_REG_PULSES_HI s < 2 ^ 32.
Proof.
  intros R.
  change (irq_storm_read IRQ_STORM_REG_PULSES_HI s)
    with (u32 (Z.shiftr (pulses_emitted s) 32)).
  change (irq_storm_read IRQ_STORM_REG_PULSES_LO s)
    with (u32 (pulses_emitted s)).
  split; [| split; apply u32_range].
  assert (V := stable_value (pulses_emitted s) (pulses_emitted s)
                 (pulses_emitted s)).
  rewrite <- V at 3 by (try lia; reflexivity).
  f_equal. symmetry. apply u64_small.
  rewrite Z.shiftl_mul_pow2 by lia.
  assert (H := u32_range (Z.shiftr (pulses_emitted s) 32)). lia.
Qed.

(** ** The period *)

(** Up to 4294967 microseconds the period is the register value in
    nanoseconds, a zero register counting as one microsecond; it is then
    never zero. *)
Theorem period_ns_exact s :
  0 <= period_us s <= 4294967 ->
  irq_storm_period_ns s = Z.max 1 (period_us s) * 1000 /\
  1000 <= irq_storm_period_ns s.
Proof.
  intros R. unfold irq_storm_period_ns, SCALE_US.
  rewrite u32_small by lia. rewrite u64_small by lia. lia.
Qed.

(** ** Arming from the current time *)

Lemma write_ctrl_enable_arms now val s :
  0 <= now -> now + 2 ^ 32 < 2 ^ 63 ->
  ctrl_enable (control s) = false -> Z.testbit val 0 = true ->
  next_deadline_ns (write_ctrl now val s) = now + irq_storm_period_ns s /\
  expire_time (write_ctrl now val s) = Some (now + irq_storm_period_ns s).
Proof.
  intros N0 N1 E B.
  assert (D : forall x, s64 (u64 now + irq_storm_period_ns x)
                        = now + irq_storm_period_ns x).
  { intros x. assert (A := period_ns_range x).
    rewrite (u64_small now) by lia. apply s64_small. lia. }
  rewrite <- ctrl_mask_enable in B. revert B.
  ctrl_cases s c; intros; try congruence; rewrite D; auto.
Qed.

(** Setting ENABLE on a disabled device, or changing the period of an
    enabled one, arms the timer one (new) period after the current time,
    whatever the previous deadline was; changing the period of a disabled
    device arms nothing. *)
Theorem arm_from_now now val s :
  0 <= now -> now + 2 ^ 32 < 2 ^ 63 ->
  (ctrl_enable (control s) = false -> Z.testbit val 0 = true ->
   let s' := irq_storm_write now IRQ_STORM_REG_CTRL val s in
   next_deadline_ns s' = now + irq_storm_period_ns s /\
   expire_time s' = Some (now + irq_storm_period_ns s)) /\
  (ctrl_enable (control s) = true -> u32 val <> period_us s ->
   let s' := irq_storm_write now IRQ_STORM_REG_PERIOD_US val s in
   period_us s' = u32 val /\
   next_deadline_ns s' = now + irq_storm_period_ns s' /\
   expire_time s' = Some (now + irq_storm_period_ns s')) /\
  (ctrl_enable (control s) = false ->
   let s' := irq_storm_write now IRQ_STORM_REG_PERIOD_US val s in
   next_deadline_ns s' = next_deadline_ns s /\
   expire_time s' = expire_time s).
Proof.
  intros N0 N1.
  assert (A : forall x, 0 <= irq_storm_period_ns x < 2 ^ 32)
    by apply period_ns_range.
  assert (D : forall x, s64 (u64 now + irq_storm_period_ns x)
                        = now + irq_storm_period_ns x).
  { intros x. specialize (A x). rewrite (u64_small now) by lia.
    apply s64_small. lia. }
  split; [| split].
  - intros E B. cbv zeta.
    change (irq_storm_write now IRQ_STORM_REG_CTRL val s)
      with (write_ctrl now val s).
    now apply write_ctrl_enable_arms.
  - intros E Q. cbv zeta.
    change (irq_storm_write now IRQ_STORM_REG_PERIOD_US val s)
      with (write_period_us now val s).
    unfold write_period_us. apply Z.eqb_neq in Q. rewrite Q. simpl.
    rewrite E. unfold irq_storm_schedule_from_now. simpl. rewrite E. simpl.
    rewrite D. auto.
  - intros E. cbv zeta.
    change (irq_storm_write now IRQ_STORM_REG_PERIOD_US val s)
      with (write_period_us now val s).
    unfold write_period_us. destruct (u32 val =? period_us s); simpl; auto.
    rewrite E. auto.
Qed.

(** ** What a running device keeps *)

Lemma line_assertions_pulses n tr :
  line_assertions (repeat Pulse n ++ tr) = Z.of_nat n + line_assertions tr.
Proof.
  induction n as [| n IH]; [reflexivity |].
  cbn [repeat app line_assertions]. rewrite IH. lia.
Qed.

Lemma line_assertions_nonneg tr : 0 <= line_assertions tr.
Proof. induction tr as [| [] tr IH]; cbn [line_assertions]; lia. Qed.

(** A write makes no call on the line, or lowers it once. *)
Lemma write_trace now addr val s :
  irq_trace (irq_storm_write now addr val s) = irq_trace s \/
  irq_trace (irq_storm_write now addr val s) = Lower :: irq_trace s.
Proof.
  unfold irq_storm_write.
  destruct (addr =? IRQ_STORM_REG_CTRL).
  { ctrl_cases s c; auto. }
  destruct (addr =? IRQ_STORM_REG_BURST).
  { unfold write_burst. destruct (negb _); simpl; auto. }
  destruct (addr =? IRQ_STORM_REG_PERIOD_US).
  { unfold write_period_us, irq_storm_schedule_from_now.
    destruct (negb _); simpl; auto.
    destruct (ctrl_enable (control s)); simpl; auto. }
  destruct (addr =? IRQ_STORM_REG_ACK); [| auto].
  unfold write_ack, irq_storm_irq_deassert.
  destruct (negb _); auto. destruct (irq_asserted s); simpl; auto.
Qed.

Lemma timer_cb_assertions now s s' :
  irq_storm_timer_cb now s = Some s' ->
  u64 (pulses_emitted s) = u64 (line_assertions (irq_trace s)) ->
  u64 (pulses_emitted s') = u64 (line_assertions (irq_trace s')).
Proof.
  intros F H.
  assert (St : forall a b k, u64 a = u64 b -> u64 (u64 (a + k)) = u64 (k + b)).
  { intros a b k Hab. unfold u64 in *. rewrite Z.mod_mod by lia.
    rewrite (Z.add_comm a k).
    rewrite <- (Z.add_mod_idemp_r k a) by lia. rewrite Hab.
    rewrite Z.add_mod_idemp_r by lia. reflexivity. }
  destruct (ctrl_enable (control s)) eqn:E.
  - destruct (ctrl_level (control s)) eqn:L.
    + destruct (irq_asserted s) eqn:A.
      * rewrite timer_cb_level_held in F by assumption.
        apply schedule_next_shape in F; [| exact E].
        rewrite F. fields. exact H.
      * rewrite timer_cb_level_idle in F by assumption.
        apply schedule_next_shape in F; [| exact E].
        rewrite F. fields. cbn [line_assertions]. now apply St.
    + rewrite timer_cb_edge in F by assumption.
      apply schedule_next_shape in F; [| exact E].
      rewrite F. fields. rewrite line_assertions_pulses.
      assert (B := burst_pulses_range s).
      rewrite Z2Nat.id by lia. now apply St.
  - rewrite timer_cb_disabled in F by assumption. now injection F as <-.
Qed.

(** [pulses_emitted] counts the assertions made on the line: in every
    reachable state it is the number of raise and pulse calls so far,
    modulo [2 ^ 64]. *)
Theorem pulses_count_assertions t s :
  reachable t s ->
  pulses_emitted s = u64 (line_assertions (irq_trace s)).
Proof.
  intros R. assert (I := reachable_Inv t s R).
  rewrite <- (u64_small (pulses_emitted s)) by apply (inv_pulses s I).
  clear I.
  induction R as [now base size line nburst period enabled level s
                    _ _ _ _ _ _ Re
                 | t now addr val s R IH _ _
                 | t now deadline s s' R IH _ _ _ F].
  - revert Re. unfold irq_storm_realize. cbn [isairq iosize instance_init].
    destruct (15 <? line); [discriminate |].
    destruct (size <? 32); [discriminate |].
    destruct level, enabled; cbn; intros [= <-]; reflexivity.
  - destruct (write_counters now addr val s) as (Q & _). cbv zeta in Q.
    rewrite Q.
    destruct (write_trace now addr val s) as [-> | ->]; exact IH.
  - apply (timer_cb_assertions now (timer_del s) s' F). exact IH.
Qed.

Lemma write_armed now addr val s :
  Inv s -> armed_when_enabled s ->
  armed_when_enabled (irq_storm_write now addr val s).
Proof.
  unfold armed_when_enabled, irq_storm_write. intros I H.
  destruct (addr =? IRQ_STORM_REG_CTRL).
  { revert H. ctrl_cases s c; intros; auto; try congruence. }
  destruct (addr =? IRQ_STORM_REG_BURST).
  { unfold write_burst. destruct (negb _); simpl; auto. }
  destruct (addr =? IRQ_STORM_REG_PERIOD_US).
  { unfold write_period_us, irq_storm_schedule_from_now.
    destruct (negb _); simpl; auto.
    destruct (ctrl_enable (control s)) eqn:E; simpl; rewrite ?E; simpl;
      auto; congruence. }
  destruct (addr =? IRQ_STORM_REG_ACK); [| exact H].
  unfold write_ack, irq_storm_irq_deassert.
  destruct (negb _); [| exact H].
  destruct (irq_asserted s) eqn:A; simpl; auto.
Qed.

Lemma reachable_armed t s :
  reachable t s -> armed_when_enabled s.
Proof.
  induction 1 as [now base size line nburst period enabled level s
                    _ _ _ _ _ _ Re
                 | t now addr val s R IH _ _
                 | t now deadline s s' R IH _ X _ F].
  - revert Re. unfold irq_storm_realize, armed_when_enabled.
    cbn [isairq iosize instance_init].
    destruct (15 <? line); [discriminate |].
    destruct (size <? 32); [discriminate |].
    destruct level, enabled; cbn; intros [= <-]; reflexivity.
  - apply write_armed; [exact (reachable_Inv t s R) | exact IH].
  - assert (E : ctrl_enable (control (timer_del s)) = true)
      by exact (pending_timer_enabled t s deadline R X).
    destruct (timer_cb_config now _ s' F) as (C & _).
    unfold armed_when_enabled. rewrite C, E.
    assert (Sh : exists s1, irq_storm_schedule_next now s1 = Some s' /\
                            ctrl_enable (control s1) = true).
    { destruct (ctrl_level (control (timer_del s))) eqn:L.
      - destruct (irq_asserted (timer_del s)) eqn:A.
        + rewrite timer_cb_level_held in F by assumption. eauto.
        + rewrite timer_cb_level_idle in F by assumption. eauto.
      - rewrite timer_cb_edge in F by assumption. eauto. }
    destruct Sh as (s1 & F1 & E1).
    apply schedule_next_shape in F1; [| exact E1].
    rewrite F1 at 1. reflexivity.
Qed.

(** An enabled device always has its next fire pending, at the recorded
    deadline, and a disabled one has none: the storm never stops by
    itself and never runs while disabled. *)
Theorem enabled_always_armed t s :
  reachable t s ->
  (ctrl_enable (control s) = true ->
   expire_time s = Some (next_deadline_ns s)) /\
  (ctrl_enable (control s) = false -> expire_time s = None).
Proof.
  intros R. assert (A := reachable_armed t s R).
  unfold armed_when_enabled in A.
  split; intros E; rewrite E in A; exact A.
Qed.

(** ** Redundant and mode-changing CTRL writes *)

Lemma ctrl_mask_level val :
  ctrl_level
    (u8 (Z.land val (Z.lor IRQ_STORM_CTRL_ENABLE IRQ_STORM_CTRL_LEVEL)))
  = Z.testbit val 1.
Proof.
  replace (Z.lor IRQ_STORM_CTRL_ENABLE IRQ_STORM_CTRL_LEVEL)
    with (Z.ones 2) by reflexivity.
  rewrite Z.land_ones by lia.
  assert (H := Z.mod_pos_bound val (2 ^ 2)).
  rewrite u8_small by lia.
  rewrite <- (Z.mod_pow2_bits_low val 2 1) by lia.
  assert (C : val mod 2 ^ 2 = 0 \/ val mod 2 ^ 2 = 1 \/
              val mod 2 ^ 2 = 2 \/ val mod 2 ^ 2 = 3) by lia.
  destruct C as [-> | [-> | [-> | ->]]]; reflexivity.
Qed.

Lemma write_ctrl_same now val s :
  u8 (Z.land val (Z.lor IRQ_STORM_CTRL_ENABLE IRQ_STORM_CTRL_LEVEL))
  = control s ->
  ctrl_enable (control s) = true \/
  (expire_time s = None /\ irq_asserted s = false) ->
  write_ctrl now val s = s.
Proof.
  intros C H. unfold write_ctrl. cbv zeta. rewrite C, Z.eqb_refl.
  cbn [negb]. rewrite Bool.andb_negb_r.
  rewrite Bool.eqb_reflx. cbn [negb].
  destruct (ctrl_enable (control s)) eqn:E; [reflexivity |].
  destruct H as [H | (X & A)]; [discriminate |].
  unfold irq_storm_irq_deassert. cbn [irq_asserted timer_del].
  destruct s; simpl in *; subst; reflexivity.
Qed.

(** Writing CTRL a second time with the same value changes nothing, and
    on a running device neither does writing the value CTRL already
    holds: no counter moves, the line is not touched and the schedule is
    not restarted. *)
Theorem ctrl_write_idempotent t now now' val s :
  irq_storm_write now' IRQ_STORM_REG_CTRL val
    (irq_storm_write now IRQ_STORM_REG_CTRL val s)
  = irq_storm_write now IRQ_STORM_REG_CTRL val s /\
  (reachable t s -> Z.land val 3 = control s ->
   irq_storm_write now IRQ_STORM_REG_CTRL val s = s).
Proof.
  change (irq_storm_write now IRQ_STORM_REG_CTRL val s)
    with (write_ctrl now val s).
  change (irq_storm_write now' IRQ_STORM_REG_CTRL val (write_ctrl now val s))
    with (write_ctrl now' val (write_ctrl now val s)).
  split.
  - apply write_ctrl_same.
    + now rewrite write_ctrl_control.
    + rewrite write_ctrl_control, ctrl_mask_enable.
      destruct (Z.testbit val 0) eqn:B; [now left | right].
      destruct (write_ctrl_disable now val s B) as (_ & A & X). auto.
  - intros R C. assert (I := reachable_Inv t s R).
    assert (Ar := reachable_armed t s R).
    unfold armed_when_enabled in Ar.
    apply write_ctrl_same.
    + change (Z.lor IRQ_STORM_CTRL_ENABLE IRQ_STORM_CTRL_LEVEL) with 3.
      rewrite C. apply u8_small. destruct I as [_ _ Hc]. lia.
    + destruct (ctrl_enable (control s)) eqn:E; [now left | right].
      split; [exact Ar | exact (inv_disabled s I E)].
Qed.

(** Clearing LEVEL drops a held line at once, without an ACK; if ENABLE
    stays set the pending fire and its deadline are left as they were. *)
Theorem level_clear_deasserts t now val s :
  reachable t s -> Z.testbit val 1 = false ->
  let s' := irq_storm_write now IRQ_STORM_REG_CTRL val s in
  ctrl_level (control s') = false /\
  irq_asserted s' = false /\ line_high (irq_trace s') = false /\
  (ctrl_enable (control s) = true -> Z.testbit val 0 = true ->
   expire_time s' = expire_time s /\
   next_deadline_ns s' = next_deadline_ns s).
Proof.
  intros R B. cbv zeta.
  assert (I' := Inv_write now IRQ_STORM_REG_CTRL val s (reachable_Inv t s R)).
  change (irq_storm_write now IRQ_STORM_REG_CTRL val s)
    with (write_ctrl now val s) in *.
  assert (L : ctrl_level (control (write_ctrl now val s)) = false)
    by (rewrite write_ctrl_control, ctrl_mask_level; exact B).
  assert (A := inv_edge _ I' L).
  split; [exact L |]. split; [exact A |].
  split; [rewrite (inv_line _ I'); exact A |].
  intros E B0. rewrite <- ctrl_mask_enable in B0. revert B0.
  ctrl_cases s c; intros; auto; congruence.
Qed.

(** ** Teardown *)

(** Unrealize cancels and frees the timer and does nothing else: the
    registers, the counters and the line are left as they are (a held
    line is not lowered, the window stays mapped), and a second call
    changes nothing. *)
Theorem unrealize_releases_timer s :
  let s' := irq_storm_unrealize s in
  timer s' = false /\
  (timer s = true -> expire_time s' = None) /\
  irq_storm_unrealize s' = s' /\
  control s' = control s /\ irq_asserted s' = irq_asserted s /\
  irq_trace s' = irq_trace s /\ io s' = io s /\ irq s' = irq s /\
  pulses_emitted s' = pulses_emitted s /\
  timer_cb_count s' = timer_cb_count s /\
  config_writes s' = config_writes s /\
  enable_toggle_count s' = enable_toggle_count s.
Proof.
  cbv zeta. unfold irq_storm_unrealize.
  destruct (timer s) eqn:T; simpl.
  - repeat split; auto.
  - rewrite T. repeat split; auto. discriminate.
Qed.

(** ** Runs of callbacks *)

(** A disabled device ignores any number of callbacks. *)
Lemma fires_disabled nows : forall s,
  ctrl_enable (control s) = false -> fires nows s = Some s.
Proof.
  induction nows as [| now rest IH]; intros s E; [reflexivity |].
  cbn [fires]. rewrite timer_cb_disabled by exact E. now apply IH.
Qed.

(** Once a CTRL write has cleared ENABLE, no run of timer callbacks
    changes the device: the counters stay frozen and the line stays
    low. *)
Theorem disabled_device_stays_quiet now nows val s :
  Z.testbit val 0 = false ->
  let s' := irq_storm_write now IRQ_STORM_REG_CTRL val s in
  fires nows s' = Some s' /\ irq_asserted s' = false /\
  expire_time s' = None.
Proof.
  intros B. cbv zeta.
  change (irq_storm_write now IRQ_STORM_REG_CTRL val s)
    with (write_ctrl now val s).
  destruct (write_ctrl_disable now val s B) as (E & A & X).
  split; [now apply fires_disabled | auto].
Qed.

(** In edge mode every callback of a run emits the same burst: after
    [length nows] callbacks [pulses_emitted] has grown by that many
    bursts and [timer_cb_count] by that many callbacks (both modulo
    [2 ^ 64]), and the line has seen exactly that many pulses. *)
Theorem edge_fires_accumulate nows : forall s,
  ctrl_enable (control s) = true -> ctrl_level (control s) = false ->
  irq_storm_period_ns s <> 0 ->
  exists s',
    fires nows s = Some s' /\
    u64 (pulses_emitted s') =
    u64 (pulses_emitted s + Z.of_nat (length nows) * burst_pulses s) /\
    u64 (timer_cb_count s') =
    u64 (timer_cb_count s + Z.of_nat (length nows)) /\
    irq_trace s' =
    repeat Pulse (length nows * Z.to_nat (burst_pulses s)) ++ irq_trace s.
Proof.
  induction nows as [| now rest IH]; intros s E L P.
  - exists s. cbn [fires length Z.of_nat Nat.mul repeat app].
    rewrite Z.mul_0_l, !Z.add_0_r. auto.
  - destruct (timer_cb_total now s P) as [s1 F].
    destruct (timer_cb_config now s s1 F) as (C & _ & B & _).
    assert (P1 := timer_cb_period now s s1 F).
    assert (B1 : burst_pulses s1 = burst_pulses s)
      by (unfold burst_pulses; now rewrite B).
    destruct (IH s1) as (s' & R & Q & N & T);
      [congruence | congruence | congruence |].
    exists s'. cbn [fires]. rewrite F. split; [exact R |].
    rewrite timer_cb_edge in F by assumption.
    apply schedule_next_shape in F; [| exact E].
    assert (Q1 : pulses_emitted s1 = u64 (pulses_emitted s + burst_pulses s))
      by (rewrite F; reflexivity).
    assert (N1 : timer_cb_count s1 = u64 (timer_cb_count s + 1))
      by (rewrite F; reflexivity).
    assert (T1 : irq_trace s1 =
                 repeat Pulse (Z.to_nat (burst_pulses s)) ++ irq_trace s)
      by (rewrite F; reflexivity).
    assert (Len : Z.of_nat (length (now :: rest)) =
                  1 + Z.of_nat (length rest))
      by (cbn [length]; lia).
    rewrite Len. split; [| split].
    + rewrite Q, Q1, B1, u64_add_idemp. f_equal. lia.
    + rewrite N, N1, u64_add_idemp. f_equal. lia.
    + rewrite T, T1, B1, app_assoc, <- repeat_app. f_equal. f_equal.
      cbn [length]. lia.
Qed.

(** ** The consumer at the device *)




(** ** The service loop's bookkeeping *)

Lemma div_succ_step h m :
  0 <= h -> 0 < m ->
  (h + 1) / m = h / m + (if (h + 1) mod m =? 0 then 1 else 0).
Proof.
  intros H M.
  assert (D := Z.div_mod h m ltac:(lia)).
  assert (R := Z.mod_pos_bound h m M).
  destruct (Z.eq_dec (h mod m + 1) m) as [Top | Low].
  - assert (Q : (h + 1) / m = h / m + 1)
      by (symmetry; apply (Z.div_unique_pos _ _ _ 0); lia).
    assert (Md : (h + 1) mod m = 0)
      by (symmetry; apply (Z.mod_unique_pos _ _ (h / m + 1)); lia).
    rewrite Q, Md. reflexivity.
  - assert (Q : (h + 1) / m = h / m)
      by (symmetry; apply (Z.div_unique_pos _ _ _ (h mod m + 1)); lia).
    assert (Md : (h + 1) mod m = h mod m + 1)
      by (symmetry; apply (Z.mod_unique_pos _ _ (h / m)); lia).
    rewrite Q, Md.
    destruct (h mod m + 1 =? 0) eqn:Z0; [apply Z.eqb_eq in Z0 |]; lia.
Qed.

Lemma service_loop_count_from n : forall handled reports,
  0 <= handled -> handled + Z.of_nat n < 2 ^ 64 ->
  service_loop_count n handled reports =
  (handled + Z.of_nat n,
   reports + (handled + Z.of_nat n) / 65536 - handled / 65536).
Proof.
  induction n as [| n IH]; intros h r H B.
  - cbn [service_loop_count Z.of_nat]. rewrite Z.add_0_r. f_equal. lia.
  - cbn [service_loop_count]. rewrite Nat2Z.inj_succ in *.
    rewrite (u64_small (h + 1)) by lia.
    change (report_every_handled - 1) with (Z.ones 16).
    rewrite Z.land_ones by lia.
    assert (S1 := div_succ_step h (2 ^ 16) H ltac:(lia)).
    change (2 ^ 16) with 65536 in *.
    destruct ((h + 1) mod 65536 =? 0) eqn:T; rewrite ?T in S1;
      rewrite IH by lia; f_equal; try lia;
      replace (h + 1 + Z.of_nat n) with (h + Z.succ (Z.of_nat n)) by lia;
      lia.
Qed.

(** The loop reports once every 65536 serviced interrupts: after [n]
    wake-ups counted from zero, [handled] is [n] and exactly
    [n / 65536] reports have been made. *)
Theorem report_every_65536 n :
  Z.of_nat n < 2 ^ 64 ->
  service_loop_count n 0 0 = (Z.of_nat n, Z.of_nat n / 65536).
Proof.
  intros B. rewrite service_loop_count_from by lia.
  rewrite !Z.add_0_l. change (0 / 65536) with 0. now rewrite Z.sub_0_r.
Qed.




(** ** Capability slots and untyped memory *)

Lemma cslot_alloc_many_from k : forall c e,
  0 <= c -> c + Z.of_nat k <= e -> e < 2 ^ 64 ->
  cslot_alloc_many k {| cur := c; win_end := e |} =
  Some (map (fun i => c + Z.of_nat i) (seq 0 k),
        {| cur := c + Z.of_nat k; win_end := e |}).
Proof.
  induction k as [| k IH]; intros c e C B E.
  - cbn [cslot_alloc_many seq map Z.of_nat]. now rewrite Z.add_0_r.
  - rewrite Nat2Z.inj_succ in B.
    cbn [cslot_alloc_many]. unfold cslot_alloc_or_die. cbn [cur win_end].
    replace (e <=? c) with false by (symmetry; apply Z.leb_gt; lia).
    rewrite (u64_small (c + 1)) by lia.
    rewrite IH by lia.
    cbn [seq map Z.of_nat]. rewrite Z.add_0_r.
    rewrite <- seq_shift, map_map. do 3 f_equal.
    + apply map_ext. intros i. lia.
    + lia.
Qed.

(** A window of [nslots] slots reserved from the end of the empty
    region hands out exactly the last [nslots] slots of that region, in
    increasing order, and then halts; reserving halts for an empty
    request and for more slots than the region has. *)
Theorem cslot_window_hands_out_last_slots bi nslots k :
  0 <= start (empty bi) <= end_ (empty bi) -> end_ (empty bi) < 2 ^ 64 ->
  0 <= nslots ->
  (reserve_cslot_window_from_end bi nslots = None <->
   nslots = 0 \/ end_ (empty bi) - start (empty bi) < nslots) /\
  (0 < nslots <= end_ (empty bi) - start (empty bi) ->
   Z.of_nat k <= nslots ->
   exists w,
     reserve_cslot_window_from_end bi nslots = Some w /\
     cslot_alloc_many k w =
     Some (map (fun i => end_ (empty bi) - nslots + Z.of_nat i) (seq 0 k),
           {| cur := end_ (empty bi) - nslots + Z.of_nat k;
              win_end := end_ (empty bi) |}) /\
     (Z.of_nat k = nslots ->
      cslot_alloc_or_die
        {| cur := end_ (empty bi) - nslots + Z.of_nat k;
           win_end := end_ (empty bi) |} = None)).
Proof.
  intros R E N.
  set (s := start (empty bi)) in *. set (e := end_ (empty bi)) in *.
  unfold reserve_cslot_window_from_end. fold s e.
  rewrite (u64_small (e - s)) by lia.
  split.
  - destruct (nslots =? 0) eqn:Z0.
    + apply Z.eqb_eq in Z0. intuition.
    + apply Z.eqb_neq in Z0.
      destruct (e - s <? nslots) eqn:A;
        [apply Z.ltb_lt in A | apply Z.ltb_ge in A].
      * intuition.
      * split; [discriminate | lia].
  - intros B K.
    replace (nslots =? 0) with false by (symmetry; apply Z.eqb_neq; lia).
    replace (e - s <? nslots) with false
      by (symmetry; apply Z.ltb_ge; lia).
    rewrite (u64_small (e - nslots)) by lia.
    eexists. split; [reflexivity |].
    split; [apply cslot_alloc_many_from; lia |].
    intros F. unfold cslot_alloc_or_die. cbn [cur win_end].
    replace (e <=? e - nslots + Z.of_nat k) with true
      by (symmetry; apply Z.leb_le; lia).
    reflexivity.
Qed.

Lemma s32_small x : - 2 ^ 31 <= x < 2 ^ 31 -> s32 x = x.
Proof. intros H. unfold s32. rewrite Z.mod_small; lia. Qed.

Lemma find_untyped_loop_spec bi min_size_bits n : forall ut,
  start (untyped bi) <= ut ->
  ut + Z.of_nat n = end_ (untyped bi) ->
  end_ (untyped bi) - start (untyped bi)
    <= Z.of_nat (length (untypedList bi)) ->
  end_ (untyped bi) - start (untyped bi) < 2 ^ 31 ->
  match find_untyped_loop bi min_size_bits ut n with
  | Some r =>
      ut <= r < end_ (untyped bi) /\ untyped_fits bi min_size_bits r /\
      forall u, ut <= u < r -> ~ untyped_fits bi min_size_bits u
  | None =>
      forall u, ut <= u < end_ (untyped bi) ->
                ~ untyped_fits bi min_size_bits u
  end.
Proof.
  induction n as [| n IH]; intros ut S E L B.
  - cbn [find_untyped_loop]. intros u U. cbn [Z.of_nat] in E. lia.
  - rewrite Nat2Z.inj_succ in E. cbn [find_untyped_loop].
    rewrite (u64_small (ut - start (untyped bi))) by lia.
    rewrite s32_small by lia.
    replace (ut - start (untyped bi) <? 0) with false
      by (symmetry; apply Z.ltb_ge; lia).
    destruct (nth_error (untypedList bi)
                (Z.to_nat (ut - start (untyped bi)))) as [d |] eqn:Nth.
    2:{ apply nth_error_None in Nth. lia. }
    assert (Skip : ~ untyped_fits bi min_size_bits ut ->
              match find_untyped_loop bi min_size_bits (ut + 1) n with
              | Some r =>
                  ut <= r < end_ (untyped bi) /\
                  untyped_fits bi min_size_bits r /\
                  (forall u, ut <= u < r -> ~ untyped_fits bi min_size_bits u)
              | None =>
                  forall u, ut <= u < end_ (untyped bi) ->
                            ~ untyped_fits bi min_size_bits u
              end).
    { intros Unfit. specialize (IH (ut + 1)).
      destruct (find_untyped_loop bi min_size_bits (ut + 1) n) as [r |].
      - destruct IH as (R & F & Least); try lia.
        split; [lia |]. split; [exact F |].
        intros u U. destruct (Z.eq_dec u ut) as [-> | Ne]; [exact Unfit |].
        apply Least. lia.
      - intros u U. destruct (Z.eq_dec u ut) as [-> | Ne]; [exact Unfit |].
        apply IH; lia. }
    destruct (isDevice d =? 0) eqn:Dev; cbn [negb].
    + apply Z.eqb_eq in Dev.
      destruct (min_size_bits <=? sizeBits d) eqn:Big.
      * apply Z.leb_le in Big. split; [lia |].
        split; [exists d; auto |]. intros u U. lia.
      * apply Z.leb_gt in Big. apply Skip.
        intros (d' & Nth' & _ & Big'). rewrite Nth in Nth'.
        injection Nth' as <-. lia.
    + apply Z.eqb_neq in Dev. apply Skip.
      intros (d' & Nth' & Dev' & _). rewrite Nth in Nth'.
      injection Nth' as <-. contradiction.
Qed.

(** The untyped search is first-fit: it returns the first untyped of the
    region that is not device memory and has at least the requested size
    bits, and halts exactly when the region has none. *)
Theorem find_untyped_first_fit bi min_size_bits :
  0 <= start (untyped bi) <= end_ (untyped bi) ->
  end_ (untyped bi) - start (untyped bi)
    <= Z.of_nat (length (untypedList bi)) ->
  end_ (untyped bi) - start (untyped bi) < 2 ^ 31 ->
  (forall ut,
     find_untyped_or_die bi min_size_bits = Some ut <->
     start (untyped bi) <= ut < end_ (untyped bi) /\
     untyped_fits bi min_size_bits ut /\
     forall u, start (untyped bi) <= u < ut ->
               ~ untyped_fits bi min_size_bits u) /\
  (find_untyped_or_die bi min_size_bits = None <->
   forall u, start (untyped bi) <= u < end_ (untyped bi) ->
             ~ untyped_fits bi min_size_bits u).
Proof.
  intros R L B.
  assert (Sp := find_untyped_loop_spec bi min_size_bits
                  (Z.to_nat (end_ (untyped bi) - start (untyped bi)))
                  (start (untyped bi))).
  rewrite Z2Nat.id in Sp by lia.
  specialize (Sp ltac:(lia) ltac:(lia) L B).
  fold (find_untyped_or_die bi min_size_bits) in Sp.
  destruct (find_untyped_or_die bi min_size_bits) as [r |].
  - destruct Sp as (Rr & F & Least). split.
    + intros ut. split.
      * intros [= <-]. auto.
      * intros (Ru & Fu & Lu). f_equal.
        destruct (Z.lt_trichotomy r ut) as [Lt | [Eq | Gt]]; [| exact Eq |].
        -- exfalso. apply (Lu r); [lia | exact F].
        -- exfalso. apply (Least ut); [lia | exact Fu].
    + split; [discriminate |]. intros None_. exfalso.
      apply (None_ r); [lia | exact F].
  - split.
    + intros ut. split; [discriminate |].
      intros (Ru & Fu & _). exfalso. exact (Sp ut Ru Fu).
    + split; auto.
Qed.

(** ** The first version of the device and its consumer *)

Lemma legacy_pulse_loop_trace n : forall l,
  Legacy.pulse_loop n l =
  Legacy.set_irq_trace (repeat Pulse n ++ Legacy.irq_trace l) l.
Proof.
  induction n as [| n IH]; intros l; simpl.
  - destruct l; reflexivity.
  - rewrite IH. unfold Legacy.qemu_irq_pulse, Legacy.set_irq_trace; simpl.
    now rewrite repeat_shift.
Qed.

Lemma legacy_schedule_next_frame now l :
  let l' := Legacy.irq_storm_schedule_next now l in
  Legacy.isairq l' = Legacy.isairq l /\ Legacy.burst l' = Legacy.burst l /\
  Legacy.period_us l' = Legacy.period_us l /\
  Legacy.control l' = Legacy.control l /\
  Legacy.pulses_emitted l' = Legacy.pulses_emitted l /\
  Legacy.irq_trace l' = Legacy.irq_trace l.
Proof.
  cbv zeta. unfold Legacy.irq_storm_schedule_next.
  destruct (negb _); simpl; auto 10.
Qed.

(** In edge mode the current device accounts for a callback exactly as
    the first version did: from matching states, one callback on each
    leaves matching states again (same pulses on the line, same
    [pulses_emitted], same configuration). *)
Theorem edge_callback_matches_legacy now s l :
  same_storm s l -> irq_storm_period_ns s <> 0 ->
  exists s',
    irq_storm_timer_cb now s = Some s' /\
    same_storm s' (Legacy.irq_storm_timer_cb now l).
Proof.
  intros (Hq & Hb & Hp & Hc & Hl & Ha & Hn & Ht) P.
  destruct (timer_cb_total now s P) as [s' F]. exists s'.
  split; [exact F |].
  unfold Legacy.irq_storm_timer_cb.
  change (Legacy.ctrl_enable (Legacy.control l))
    with (ctrl_enable (Legacy.control l)).
  rewrite <- Hc.
  destruct (ctrl_enable (control s)) eqn:E; cbn [negb].
  - rewrite timer_cb_edge in F by assumption.
    apply schedule_next_shape in F; [| exact E].
    cbv zeta. rewrite legacy_pulse_loop_trace.
    match goal with
    | |- same_storm _ (Legacy.irq_storm_schedule_next _ ?x) =>
        destruct (legacy_schedule_next_frame now x)
          as (Lq & Lb & Lp & Lc & Ln & Lt)
    end.
    cbv zeta in Lq, Lb, Lp, Lc, Ln, Lt.
    unfold same_storm. rewrite Lq, Lb, Lp, Lc, Ln, Lt.
    rewrite F. unfold burst_pulses.
    unfold Legacy.IRQ_STORM_MAX_BURST, IRQ_STORM_MAX_BURST.
    destruct s, l. cbn in *.
    subst. repeat split; auto.
  - rewrite timer_cb_disabled in F by assumption. injection F as <-.
    unfold same_storm. auto 10.
Qed.

Lemma legacy_ctrl_mask val :
  u8 (Z.land val Legacy.IRQ_STORM_CTRL_ENABLE) =
  if Z.testbit val 0 then 1 else 0.
Proof.
  change Legacy.IRQ_STORM_CTRL_ENABLE with (Z.ones 1).
  rewrite Z.land_ones by lia. change (2 ^ 1) with 2.
  assert (H := Z.mod_pos_bound val 2).
  rewrite u8_small by lia. rewrite <- Z.bit0_mod.
  destruct (Z.testbit val 0); reflexivity.
Qed.

Lemma ctrl_mask_edge val :
  Z.testbit val 1 = false ->
  u8 (Z.land val (Z.lor IRQ_STORM_CTRL_ENABLE IRQ_STORM_CTRL_LEVEL)) =
  if Z.testbit val 0 then 1 else 0.
Proof.
  intros B.
  assert (L := ctrl_mask_level val). assert (E := ctrl_mask_enable val).
  rewrite B in L.
  destruct (ctrl_mask_cases val) as [C | [C | [C | C]]]; cbv zeta in C;
    rewrite C in *; rewrite <- E; try reflexivity; discriminate.
Qed.

(** A guest that keeps to the first version's interface (never sets
    LEVEL) cannot tell the two versions apart by their registers: from
    matching states every read below offset 0x0C returns the same value
    on both, and every write leaves matching states again. *)
Theorem legacy_register_file_compatible now addr val s l :
  same_storm s l ->
  (addr < 0x0c ->
   irq_storm_read addr s = Legacy.irq_storm_read addr l) /\
  (addr = IRQ_STORM_REG_CTRL -> Z.testbit val 1 = false ->
   same_storm (irq_storm_write now addr val s)
     (Legacy.irq_storm_write now addr val l)) /\
  (addr <> IRQ_STORM_REG_CTRL ->
   same_storm (irq_storm_write now addr val s)
     (Legacy.irq_storm_write now addr val l)).
Proof.
  intros (Hq & Hb & Hp & Hc & Hl & Ha & Hn & Ht).
  split; [| split].
  - intros A. unfold irq_storm_read, Legacy.irq_storm_read.
    change Legacy.IRQ_STORM_REG_CTRL with IRQ_STORM_REG_CTRL.
    change Legacy.IRQ_STORM_REG_IRQ with IRQ_STORM_REG_IRQ.
    change Legacy.IRQ_STORM_REG_BURST with IRQ_STORM_REG_BURST.
    change Legacy.IRQ_STORM_REG_STATUS with IRQ_STORM_REG_STATUS.
    change Legacy.IRQ_STORM_REG_PERIOD_US with IRQ_STORM_REG_PERIOD_US.
    change Legacy.IRQ_STORM_REG_PULSES with IRQ_STORM_REG_PULSES_LO.
    change (Legacy.ctrl_enable (Legacy.control l))
      with (ctrl_enable (Legacy.control l)).
    rewrite <- Hq, <- Hb, <- Hp, <- Hc, <- Hn, Hl, Ha.
    destruct (addr =? IRQ_STORM_REG_CTRL); [reflexivity |].
    destruct (addr =? IRQ_STORM_REG_IRQ); [reflexivity |].
    destruct (addr =? IRQ_STORM_REG_BURST); [reflexivity |].
    destruct (addr =? IRQ_STORM_REG_STATUS).
    { destruct (ctrl_enable (control s)); reflexivity. }
    destruct (addr =? IRQ_STORM_REG_PERIOD_US); [reflexivity |].
    destruct (addr =? IRQ_STORM_REG_PULSES_LO); [reflexivity |].
    replace (addr =? IRQ_STORM_REG_PULSES_HI) with false
      by (symmetry; apply Z.eqb_neq; unfold IRQ_STORM_REG_PULSES_HI; lia).
    replace (addr =? IRQ_STORM_REG_TIMER_CB) with false
      by (symmetry; apply Z.eqb_neq; unfold IRQ_STORM_REG_TIMER_CB; lia).
    replace (addr =? IRQ_STORM_REG_CFG_WRITES) with false
      by (symmetry; apply Z.eqb_neq; unfold IRQ_STORM_REG_CFG_WRITES; lia).
    replace (addr =? IRQ_STORM_REG_EN_TOGGLES) with false
      by (symmetry; apply Z.eqb_neq; unfold IRQ_STORM_REG_EN_TOGGLES; lia).
    reflexivity.
  - intros -> B.
    change (irq_storm_write now IRQ_STORM_REG_CTRL val s)
      with (write_ctrl now val s).
    unfold Legacy.irq_storm_write.
    change (IRQ_STORM_REG_CTRL =? Legacy.IRQ_STORM_REG_CTRL) with true.
    cbv iota zeta.
    rewrite legacy_ctrl_mask.
    assert (M := ctrl_mask_edge val B).
    assert (Fr : forall l0,
               let l' := Legacy.irq_storm_schedule_next now l0 in
               same_storm (write_ctrl now val s) l0 ->
               same_storm (write_ctrl now val s) l').
    { intros l0. cbv zeta.
      destruct (legacy_schedule_next_frame now l0)
        as (Lq & Lb & Lp & Lc & Ln & Lt). cbv zeta in *.
      unfold same_storm. now rewrite Lq, Lb, Lp, Lc, Ln, Lt. }
    assert (Base : same_storm (write_ctrl now val s)
                     (Legacy.set_control (if Z.testbit val 0 then 1 else 0) l)).
    { unfold same_storm. rewrite write_ctrl_control, M.
      cbn [Legacy.isairq Legacy.burst Legacy.period_us Legacy.control
           Legacy.pulses_emitted Legacy.irq_trace Legacy.set_control].
      rewrite <- Hq, <- Hb, <- Hp, <- Hn, <- Ht.
      destruct (write_ctrl_counters now val s) as (_ & _ & Q & _).
      assert (Rest : isairq (write_ctrl now val s) = isairq s /\
                     burst (write_ctrl now val s) = burst s /\
                     period_us (write_ctrl now val s) = period_us s /\
                     irq_asserted (write_ctrl now val s) = false /\
                     irq_trace (write_ctrl now val s) = irq_trace s).
      { revert Ha. ctrl_cases s c; intros; auto 10; congruence. }
      destruct Rest as (R1 & R2 & R3 & R4 & R5).
      rewrite R1, R2, R3, R4, R5, Q.
      repeat split; auto. destruct (Z.testbit val 0); reflexivity. }
    cbn [Legacy.control Legacy.set_control].
    destruct (Z.testbit val 0).
    + change (Legacy.ctrl_enable 1) with true. cbv iota.
      destruct (negb (Legacy.ctrl_enable (Legacy.control l)));
        [apply Fr |]; exact Base.
    + change (Legacy.ctrl_enable 0) with false. cbv iota.
      unfold same_storm in *. exact Base.
  - intros NC. apply Z.eqb_neq in NC.
    unfold irq_storm_write, Legacy.irq_storm_write.
    change Legacy.IRQ_STORM_REG_CTRL with IRQ_STORM_REG_CTRL.
    change Legacy.IRQ_STORM_REG_BURST with IRQ_STORM_REG_BURST.
    change Legacy.IRQ_STORM_REG_PERIOD_US with IRQ_STORM_REG_PERIOD_US.
    rewrite NC. cbv zeta.
    destruct (addr =? IRQ_STORM_REG_BURST).
    { unfold write_burst, same_storm.
      destruct (negb (u32 val =? burst s)) eqn:Q; simpl.
      - repeat split; auto.
      - apply negb_false_iff, Z.eqb_eq in Q.
        repeat split; auto; congruence. }
    destruct (addr =? IRQ_STORM_REG_PERIOD_US).
    { assert (Base : same_storm (write_period_us now val s)
                       (Legacy.set_period_us (u32 val) l)).
      { unfold write_period_us, same_storm, irq_storm_schedule_from_now.
        destruct (negb (u32 val =? period_us s)) eqn:Q; simpl.
        - destruct (ctrl_enable (control s)) eqn:E; simpl; rewrite ?E; simpl;
            repeat split; auto.
        - apply negb_false_iff, Z.eqb_eq in Q.
          repeat split; auto; congruence. }
      cbn [Legacy.control Legacy.set_period_us].
      destruct (Legacy.ctrl_enable (Legacy.control l)); [| exact Base].
      destruct (legacy_schedule_next_frame now
                  (Legacy.set_period_us (u32 val) l))
        as (Lq & Lb & Lp & Lc & Ln & Lt). cbv zeta in *.
      unfold same_storm in *. now rewrite Lq, Lb, Lp, Lc, Ln, Lt. }
    destruct (addr =? IRQ_STORM_REG_ACK).
    { unfold write_ack, irq_storm_irq_deassert. rewrite Ha.
      destruct (negb _); unfold same_storm; auto 10. }
    unfold same_storm; auto 10.
Qed.

Lemma timer_cb_next_deadline now s s' :
  ctrl_enable (control s) = true ->
  irq_storm_period_ns s <> 0 ->
  0 <= next_deadline_ns s -> 0 <= now ->
  next_deadline_ns s + irq_storm_period_ns s < 2 ^ 63 ->
  now + irq_storm_period_ns s < 2 ^ 63 ->
  irq_storm_timer_cb now s = Some s' ->
  next_deadline_ns s' =
    let d1 := next_deadline_ns s + irq_storm_period_ns s in
    if d1 <=? now
    then d1 + ((now - d1) / irq_storm_period_ns s + 1) * irq_storm_period_ns s
    else d1.
Proof.
  intros E P D N DP NP F.
  assert (Hs : exists s1,
             irq_storm_schedule_next now s1 = Some s' /\
             next_deadline_ns s1 = next_deadline_ns s /\
             irq_storm_period_ns s1 = irq_storm_period_ns s /\
             ctrl_enable (control s1) = true).
  { destruct (ctrl_level (control s)) eqn:L.
    - destruct (irq_asserted s) eqn:A.
      + rewrite timer_cb_level_held in F by assumption. eauto 10.
      + rewrite timer_cb_level_idle in F by assumption. eauto 10.
    - rewrite timer_cb_edge in F by assumption. eauto 10. }
  destruct Hs as (s1 & F1 & D1 & P1 & E1).
  assert (Dl := schedule_next_deadline now s1 s' E1).
  rewrite P1, D1 in Dl. exact (Dl P D N DP NP F1).
Qed.

(** Against the first version's scheduler, which re-arms one period
    after the callback runs, for a callback that runs at or after its
    deadline on an enabled device, with the same PERIOD_US on both
    versions and a clock that does not overflow.  If the period in
    nanoseconds is not zero, the current scheduler never schedules
    later: the new deadline lies within one period after the current
    time, and it is the first version's deadline exactly when the
    callback is late by a whole number of periods.  If the period is
    zero (the 32-bit product has wrapped), the first version re-arms at
    the current time and the current callback stops on the division. *)
Theorem drift_corrected_never_later now s l :
  period_us s = Legacy.period_us l ->
  ctrl_enable (control s) = true ->
  Legacy.ctrl_enable (Legacy.control l) = true ->
  0 <= next_deadline_ns s <= now ->
  now + irq_storm_period_ns s < 2 ^ 63 ->
  Legacy.expire_time (Legacy.irq_storm_timer_cb now l)
    = Some (now + irq_storm_period_ns s) /\
  (irq_storm_period_ns s <> 0 ->
   exists s',
     irq_storm_timer_cb now s = Some s' /\
     now < next_deadline_ns s' <= now + irq_storm_period_ns s /\
     (next_deadline_ns s' = now + irq_storm_period_ns s <->
      (now - next_deadline_ns s) mod irq_storm_period_ns s = 0)) /\
  (irq_storm_period_ns s = 0 -> irq_storm_timer_cb now s = None).
Proof.
  intros Hp E El D NP.
  assert (R := period_ns_range s).
  split.
  { unfold Legacy.irq_storm_timer_cb. rewrite El. cbn [negb]. cbv zeta.
    unfold Legacy.irq_storm_schedule_next.
    cbn [Legacy.control Legacy.set_pulses_emitted].
    rewrite legacy_pulse_loop_trace.
    cbn [Legacy.control Legacy.set_irq_trace Legacy.period_us].
    rewrite El. cbn [negb Legacy.timer_mod Legacy.set_expire_time
                       Legacy.expire_time].
    match goal with
    | |- context [Legacy.period_us ?x] =>
        change (Legacy.period_us x) with (Legacy.period_us l)
    end.
    rewrite <- Hp. fold (irq_storm_period_ns s).
    rewrite (u64_small now) by lia. rewrite s64_small by lia.
    reflexivity. }
  split; [| intros Z0; apply timer_cb_zero_period; try assumption; lia].
  intros P.
  destruct (timer_cb_total now s P) as [s' F]. exists s'.
  split; [exact F |].
  assert (Dl := timer_cb_next_deadline now s s' E P ltac:(lia) ltac:(lia)
                  ltac:(lia) NP F).
  cbv zeta in Dl.
  set (d := next_deadline_ns s) in *.
  set (p := irq_storm_period_ns s) in *.
  assert (Dv := Z.div_mod (now - d) p P).
  assert (Md := Z.mod_pos_bound (now - d) p ltac:(lia)).
  destruct (d + p <=? now) eqn:Late.
  - apply Z.leb_le in Late.
    assert (Q : (now - (d + p)) / p = (now - d) / p - 1).
    { symmetry.
      apply (Z.div_unique_pos _ _ _ ((now - d) mod p)); lia. }
    rewrite Q in Dl. split; [nia |]. split; intros H; nia.
  - apply Z.leb_gt in Late.
    assert (Q : (now - d) / p = 0) by (apply Z.div_small; lia).
    rewrite Q in Dv. split; [lia |]. split; intros H; lia.
Qed.

(** The first consumer reads LO and then HI once, without a second HI
    sample.  If the high word did not change between the two accesses
    the result is the counter as it stood at the LO read; if a carry
    into the high word fell between them, the result is that counter
    plus [2 ^ 32]. *)
Theorem read_once_can_tear (b : bus) (n : nat) :
  (forall i, iobase (b i) = STORM_IOBASE) ->
  (forall i, 0 <= pulses_emitted (b i) < 2 ^ 64) ->
  let v := read_u64_lohi_once b n REG_PULSES_LO REG_PULSES_HI in
  let hi i := pulses_emitted (b i) / 2 ^ 32 in
  (hi (n + 1)%nat = hi n -> v = pulses_emitted (b n)) /\
  (hi (n + 1)%nat = hi n + 1 -> v = pulses_emitted (b n) + 2 ^ 32).
Proof.
  intros W R. cbv zeta. unfold read_u64_lohi_once.
  rewrite (in32_hi b W), (in32_lo b W).
  rewrite Z.shiftr_div_pow2 by lia.
  assert (B : forall p, 0 <= p < 2 ^ 64 -> 0 <= p / 2 ^ 32 < 2 ^ 32).
  { intros p Hp. split; [apply Z.div_pos; lia |].
    apply Z.div_lt_upper_bound; lia. }
  assert (B1 := B _ (R (n + 1)%nat)). assert (B0 := B _ (R n)).
  rewrite u32_small by exact B1.
  rewrite Z.shiftl_mul_pow2 by lia.
  rewrite u64_small by lia.
  unfold u32. rewrite lor_disjoint by (apply Z.mod_pos_bound; lia).
  assert (Dv := Z.div_mod (pulses_emitted (b n)) (2 ^ 32) ltac:(lia)).
  split; intros H; rewrite H; lia.
Qed.

(** ** The further properties at work on the sample inputs *)

Ltac computed :=
  vm_compute; repeat split; first [reflexivity | discriminate].


Lemma pulses_halves_recombine_witness :
  0 <= pulses_emitted carry_after < 2 ^ 64 /\
  Z.lor (Z.shiftl (irq_storm_read IRQ_STORM_REG_PULSES_HI carry_after) 32)
        (irq_storm_read IRQ_STORM_REG_PULSES_LO carry_after)
  = pulses_emitted carry_after.
Proof.
  assert (R : 0 <= pulses_emitted carry_after < 2 ^ 64) by computed.
  split; [exact R |].
  exact (proj1 (pulses_halves_recombine carry_after R)).
Defined.

Lemma period_ns_exact_witness :
  0 <= period_us edge_device <= 4294967 /\
  irq_storm_period_ns edge_device = Z.max 1 (period_us edge_device) * 1000.
Proof.
  assert (R : 0 <= period_us edge_device <= 4294967) by computed.
  split; [exact R |].
  exact (proj1 (period_ns_exact edge_device R)).
Defined.

Lemma arm_from_now_witness :
  ctrl_enable (control idle_device) = false /\
  expire_time (irq_storm_write 5000 IRQ_STORM_REG_CTRL 1 idle_device)
  = Some (5000 + irq_storm_period_ns idle_device).
Proof.
  split; [computed |].
  assert (N0 : 0 <= 5000) by computed.
  assert (N1 : 5000 + 2 ^ 32 < 2 ^ 63) by computed.
  destruct (arm_from_now 5000 1 idle_device N0 N1) as (A & _).
  apply A; computed.
Defined.

Lemma pulses_count_assertions_witness :
  pulses_emitted (fired 100000 (timer_del level_device)) =
  u64 (line_assertions
         (irq_trace (fired 100000 (timer_del level_device)))).
Proof.
  exact (pulses_count_assertions 100000 _ level_fired_reachable).
Defined.

Lemma enabled_always_armed_witness :
  ctrl_enable (control edge_device) = true /\
  expire_time edge_device = Some (next_deadline_ns edge_device).
Proof.
  assert (E : ctrl_enable (control edge_device) = true) by computed.
  split; [exact E |].
  exact (proj1 (enabled_always_armed 0 edge_device edge_device_reachable) E).
Defined.

Lemma level_clear_deasserts_witness :
  irq_asserted (fired 100000 (timer_del level_device)) = true /\
  irq_asserted
    (irq_storm_write 150000 IRQ_STORM_REG_CTRL 1
       (fired 100000 (timer_del level_device))) = false.
Proof.
  split; [computed |].
  assert (B : Z.testbit 1 1 = false) by computed.
  destruct (level_clear_deasserts 100000 150000 1 _ level_fired_reachable B)
    as (_ & A & _).
  exact A.
Defined.

Lemma disabled_device_stays_quiet_witness :
  fires [160000; 170000; 180000]
    (irq_storm_write 150000 IRQ_STORM_REG_CTRL 2
       (fired 100000 (timer_del level_device)))
  = Some (irq_storm_write 150000 IRQ_STORM_REG_CTRL 2
            (fired 100000 (timer_del level_device))).
Proof.
  assert (B : Z.testbit 2 0 = false) by computed.
  exact (proj1 (disabled_device_stays_quiet 150000 [160000; 170000; 180000]
                  2 (fired 100000 (timer_del level_device)) B)).
Defined.

Lemma edge_fires_accumulate_witness :
  exists s',
    fires [100000; 200000; 300000] edge_device = Some s' /\
    u64 (pulses_emitted s') =
    u64 (pulses_emitted edge_device +
         Z.of_nat (length [100000; 200000; 300000])
         * burst_pulses edge_device) /\
    u64 (timer_cb_count s') =
    u64 (timer_cb_count edge_device +
         Z.of_nat (length [100000; 200000; 300000])) /\
    irq_trace s' =
    repeat Pulse
      (length [100000; 200000; 300000] * Z.to_nat (burst_pulses edge_device))
    ++ irq_trace edge_device.
Proof.
  apply (edge_fires_accumulate [100000; 200000; 300000] edge_device);
    computed.
Defined.



Lemma report_every_65536_witness :
  service_loop_count (Z.to_nat 131073) 0 0 = (131073, 2).
Proof.
  rewrite (report_every_65536 (Z.to_nat 131073)); computed.
Defined.


Lemma cslot_window_hands_out_last_slots_witness :
  exists w,
    reserve_cslot_window_from_end sample_bootinfo 32 = Some w /\
    cslot_alloc_many 4 w =
    Some (map (fun i => end_ (empty sample_bootinfo) - 32 + Z.of_nat i)
            (seq 0 4),
          {| cur := end_ (empty sample_bootinfo) - 32 + Z.of_nat 4;
             win_end := end_ (empty sample_bootinfo) |}).
Proof.
  assert (R : 0 <= start (empty sample_bootinfo)
              <= end_ (empty sample_bootinfo)) by computed.
  assert (E : end_ (empty sample_bootinfo) < 2 ^ 64) by computed.
  assert (N : 0 <= 32) by computed.
  assert (B : 0 < 32 <= end_ (empty sample_bootinfo)
                        - start (empty sample_bootinfo)) by computed.
  assert (K : Z.of_nat 4 <= 32) by computed.
  destruct (proj2 (cslot_window_hands_out_last_slots sample_bootinfo 32 4
                     R E N) B K) as (w & Rw & Al & _).
  exists w. split; [exact Rw | exact Al].
Defined.

Lemma find_untyped_first_fit_witness :
  find_untyped_or_die sample_bootinfo 6 = Some 12 /\
  untyped_fits sample_bootinfo 6 12.
Proof.
  assert (F : find_untyped_or_die sample_bootinfo 6 = Some 12) by computed.
  split; [exact F |].
  assert (R : 0 <= start (untyped sample_bootinfo)
              <= end_ (untyped sample_bootinfo)) by computed.
  assert (L : end_ (untyped sample_bootinfo) - start (untyped sample_bootinfo)
              <= Z.of_nat (length (untypedList sample_bootinfo)))
    by computed.
  assert (B : end_ (untyped sample_bootinfo) - start (untyped sample_bootinfo)
              < 2 ^ 31) by computed.
  destruct (proj1 (proj1 (find_untyped_first_fit sample_bootinfo 6 R L B) 12)
              F) as (_ & Fit & _).
  exact Fit.
Defined.

Lemma edge_legacy_same_storm : same_storm edge_device legacy_edge_device.
Proof. unfold same_storm. computed. Defined.

Lemma edge_callback_matches_legacy_witness :
  exists s',
    irq_storm_timer_cb 100000 edge_device = Some s' /\
    same_storm s' (Legacy.irq_storm_timer_cb 100000 legacy_edge_device).
Proof.
  apply (edge_callback_matches_legacy 100000 edge_device legacy_edge_device).
  - exact edge_legacy_same_storm.
  - computed.
Defined.

Lemma legacy_register_file_compatible_witness :
  irq_storm_read IRQ_STORM_REG_BURST edge_device
  = Legacy.irq_storm_read IRQ_STORM_REG_BURST legacy_edge_device /\
  same_storm (irq_storm_write 5 IRQ_STORM_REG_BURST 7 edge_device)
    (Legacy.irq_storm_write 5 IRQ_STORM_REG_BURST 7 legacy_edge_device).
Proof.
  destruct (legacy_register_file_compatible 5 IRQ_STORM_REG_BURST 7
              edge_device legacy_edge_device edge_legacy_same_storm)
    as (Rd & _ & Wr).
  split; [apply Rd | apply Wr]; computed.
Defined.

Lemma drift_corrected_never_later_witness :
  (Legacy.expire_time (Legacy.irq_storm_timer_cb 470000 legacy_edge_device)
     = Some (470000 + irq_storm_period_ns edge_device) /\
   exists s',
     irq_storm_timer_cb 470000 edge_device = Some s' /\
     470000 < next_deadline_ns s'
     <= 470000 + irq_storm_period_ns edge_device /\
     (next_deadline_ns s' = 470000 + irq_storm_period_ns edge_device <->
      (470000 - next_deadline_ns edge_device)
        mod irq_storm_period_ns edge_device = 0)) /\
  (Legacy.expire_time
     (Legacy.irq_storm_timer_cb 50
        (Legacy.irq_storm_write 50 Legacy.IRQ_STORM_REG_PERIOD_US (2 ^ 29)
           legacy_edge_device))
     = Some (50 + irq_storm_period_ns zero_period_device) /\
   irq_storm_period_ns zero_period_device = 0 /\
   irq_storm_timer_cb 50 zero_period_device = None).
Proof.
  split.
  - destruct (drift_corrected_never_later 470000 edge_device
                legacy_edge_device) as (Lg & Nz & _); try computed.
    split; [exact Lg |]. apply Nz. computed.
  - destruct (drift_corrected_never_later 50 zero_period_device
                (Legacy.irq_storm_write 50 Legacy.IRQ_STORM_REG_PERIOD_US
                   (2 ^ 29) legacy_edge_device)
                ltac:(computed) ltac:(computed) ltac:(computed)
                ltac:(computed) ltac:(computed)) as (Lg & _ & Zr).
    split; [exact Lg |]. split; [computed |]. apply Zr. computed.
Defined.

Lemma read_once_can_tear_witness :
  read_u64_lohi_once racing_bus 0%nat REG_PULSES_LO REG_PULSES_HI
  = pulses_emitted (racing_bus 0%nat) + 2 ^ 32.
Proof.
  apply (proj2 (read_once_can_tear racing_bus 0%nat racing_bus_window
                  racing_bus_range)).
  computed.
Defined.
